(** * TransactionScope: a unit-of-work coordinator

    Shallow embedding of [src/database/transaction-scope.ts].

    A [TransactionScope] owns a queue of pending changes
    ([_transactionObjects]) and a registry of hooks ([_hooks]).  Staging
    methods append to the queue; [commit] replays the queue inside one
    datastore transaction and then runs the AfterCommit hooks.

    The embedding keeps the shape of the TypeScript:
    - JavaScript objects are property maps ([gmap string Value]) living in a
      heap, and the queue holds references to them, so that
      [obj[key] = value] is visible through every alias;
    - [async] methods are computations in a state-and-exception monad [M];
      [try/catch/finally] are combinators on [M];
    - the TypeORM entity manager is an abstract collaborator [ds_exec]; every
      call made to it, every [console.error] and every listener invocation
      is appended to an event trace. *)

From stdpp Require Import base option list strings functions gmap fin_maps.

Open Scope string_scope.
Open Scope list_scope.
Set Warnings "-register-all".

(** ** JavaScript values *)

Inductive Value : Type :=
| VUndefined
| VNull
| VBool (b : bool)
| VNum (n : Z)
| VStr (s : string)
| VFun (label : string)                    (* a callable; [typeof v === 'function'] *)
| VArr (items : list Value)
| VObj (entries : list (string * Value)).

(** [typeof value === 'function'] *)
Definition isFunction (v : Value) : bool :=
  match v with VFun _ => true | _ => false end.

(** JavaScript truthiness, as used by [if (x)] and [x ? a : b]. *)
Definition truthy (v : Value) : bool :=
  match v with
  | VUndefined | VNull => false
  | VBool b => b
  | VNum n => negb (Z.eqb n 0)
  | VStr s => negb (String.eqb s "")
  | VFun _ | VArr _ | VObj _ => true
  end.

(** Truthiness of an optional string such as [options.where]. *)
Definition truthyStr (o : option string) : bool :=
  match o with
  | None => false
  | Some s => negb (String.eqb s "")
  end.

Abbreviation FieldMap := (gmap string Value) (only parsing).

(** Modelled from the spec: the class [EntityBase] is declared in
    [./entitybase], which is not among the sources.  An entity exposes a
    stable identity [id], an optional snapshot [entitySnapshot] of its
    pre-mutation field values and a derived view of the fields changed since
    the snapshot (the getter [getPropertiesToUpdate], a parameter below).

    A heap object is its own properties, plus what its prototype chain
    decides: [constructor.name] and [instanceof EntityBase]. *)
Record JsObject : Type := mkJsObject {
  className : string;
  isEntityBase : bool;
  props : FieldMap;
}.

Definition setProp (key : string) (value : Value) (o : JsObject) : JsObject :=
  {| className := className o;
     isEntityBase := isEntityBase o;
     props := <[key := value]> (props o) |}.

(** The heap maps every reference to the object it denotes. *)
Abbreviation Heap := (nat → JsObject).

(** [h[l].key]; an absent property reads as [undefined]. *)
Definition getProp (h : Heap) (l : nat) (key : string) : Value :=
  default VUndefined (props (h l) !! key).

(** ** The data model of transaction-scope.ts *)

Record IRawQuery : Type := mkIRawQuery {
  query : string;
  parameters : list Value;
}.

Inductive HookType : Type := AfterCommit.

Inductive TransactionCollectionEnum : Type :=
| RawQuery
| EntityCollection
| BulkEntityCollnection.

(** Modelled from the spec: [ObjectState] is imported from [../common/enums],
    which is not among the sources; the four members are the ones the
    [switch] of [commit] names. *)
Inductive ObjectState : Type := Insert | Update | Delete | HardDelete.

Record TransactionScopeOptions : Type := mkOptions {
  where_ : option string;
  values : FieldMap;
}.

(** [object: EntityBase[] | EntityBase | IRawQuery].  Entities are
    references into the heap. *)
Inductive Payload : Type :=
| PRaw (q : IRawQuery)
| PRef (l : nat)
| PArr (ls : list nat).

Record TransactionScopeObject : Type := mkTransactionScopeObject {
  type : TransactionCollectionEnum;
  object : Payload;
  objectState : option ObjectState;
  options : option TransactionScopeOptions;
}.

(** ** Errors, listeners and hooks *)

Inductive Exn : Type :=
| BadRequestException (message : string)
| JsError (message : string)               (* [new Error(message)] *)
| TypeError (message : string)
| External (label : string).               (* raised by a collaborator *)

(** What calling [hook.listener(hook.data)] does: it returns (a plain value
    or a promise that fulfils), it throws before returning, or it returns a
    promise that rejects.  Listeners that never settle are not modelled,
    nor are listeners that stage changes on the scope that runs them. *)
Inductive ListenerResult : Type :=
| Returned
| Threw (e : Exn)
| Rejected (e : Exn).

Record HooksMetaData : Type := mkHook {
  listener : FieldMap → ListenerResult;
  data : FieldMap;
  hookType : HookType;
}.

(** A settled promise, as [Promise.allSettled] sees it. *)
Inductive Settled : Type :=
| Fulfilled
| RejectedWith (e : Exn).

(** ** The datastore collaborator *)

(** An element of the list that the bulk path hands to [save]:
    [(TransactionScopeObject | EntityBase)[]]. *)
Inductive BulkItem : Type :=
| ItemRecord (t : TransactionScopeObject)
| ItemEntity (l : nat).

Inductive SaveTarget : Type :=
| SavePayload (p : Payload)
| SaveList (items : list BulkItem).

Inductive Criteria : Type :=
| CriteriaWhere (w : string)
| CriteriaId (id : Value).                 (* [{ id: entity.id }] *)

(** [SaveOptions] and [RemoveOptions] are option bags of TypeORM. *)
Abbreviation SaveOptions := (gmap string Value) (only parsing).
Abbreviation RemoveOptions := (gmap string Value) (only parsing).

Inductive DsCall : Type :=
| DsStartTransaction
| DsCommitTransaction
| DsRollbackTransaction
| DsSave (target : SaveTarget) (opts : option SaveOptions)
| DsSoftRemove (target : Payload) (opts : option SaveOptions)
| DsRemove (target : Payload) (opts : option SaveOptions)
| DsUpdate (entityClass : Value) (criteria : Criteria) (fields : FieldMap)
| DsInsert (entityClass : Value) (fields : FieldMap)
| DsQuery (text : Value) (params : Value).

Inductive Event : Type :=
| EvDs (c : DsCall)
| EvConsoleError (message : string)
| EvListener (h : HooksMetaData).

Definition isListenerEvent (ev : Event) : bool :=
  match ev with EvListener _ => true | _ => false end.

(** How a computation completes. *)
Inductive Completion (A : Type) : Type :=
| Normal (a : A)
| Throw (e : Exn).
Arguments Normal {A} a.
Arguments Throw {A} e.

(** [o[key]] for an object value given by its entries; as in an object
    literal, the last entry for a key is the one that counts. *)
Fixpoint objGet (key : string) (entries : list (string * Value)) : option Value :=
  match entries with
  | [] => None
  | (k, v) :: rest =>
      match objGet key rest with
      | Some v' => Some v'
      | None => if String.eqb k key then Some v else None
      end
  end.

(** [v.name]: reading a property of [undefined] or [null] throws; a
    function has its name (its label here), an object the value of its
    [name] entry, and strings, numbers, booleans and arrays have none. *)
Definition nameOf (v : Value) : Completion Value :=
  match v with
  | VUndefined | VNull =>
      Throw (TypeError "Cannot read properties of undefined (reading 'name')")
  | VFun label => Normal (VStr label)
  | VObj entries => Normal (default VUndefined (objGet "name" entries))
  | VBool _ | VNum _ | VStr _ | VArr _ => Normal VUndefined
  end.

(** ** The world a [TransactionScope] runs in *)

(** What the entity manager answers to one call: it completes, possibly
    having touched the entities it was given and its own state [D], and
    returns the generated maps (of an [insert]); or it raises. *)
Inductive DsOutcome (D : Type) : Type :=
| DsDone (h : Heap) (d : D) (generatedMaps : list FieldMap)
| DsRaised (e : Exn).
Arguments DsDone {D} h d generatedMaps.
Arguments DsRaised {D} e.

Record World (D : Type) : Type := mkWorld {
  heap : Heap;
  _transactionObjects : list TransactionScopeObject;
  _hooks : list HooksMetaData;
  db : D;
  trace : list Event;
}.
Arguments mkWorld {D} heap _transactionObjects _hooks db trace.
Arguments heap {D} w.
Arguments _transactionObjects {D} w.
Arguments _hooks {D} w.
Arguments db {D} w.
Arguments trace {D} w.

Definition set_heap {D} (h : Heap) (w : World D) : World D :=
  mkWorld h (_transactionObjects w) (_hooks w) (db w) (trace w).

Definition set_transactionObjects {D} (q : list TransactionScopeObject) (w : World D) : World D :=
  mkWorld (heap w) q (_hooks w) (db w) (trace w).

Definition set_hooks {D} (hs : list HooksMetaData) (w : World D) : World D :=
  mkWorld (heap w) (_transactionObjects w) hs (db w) (trace w).

Definition set_db {D} (d : D) (w : World D) : World D :=
  mkWorld (heap w) (_transactionObjects w) (_hooks w) d (trace w).

Definition emit {D} (ev : Event) (w : World D) : World D :=
  mkWorld (heap w) (_transactionObjects w) (_hooks w) (db w) (trace w ++ [ev]).

(** ** Computations: state and exceptions *)

Definition M (D A : Type) : Type := World D → World D * Completion A.

Definition ret {D A} (a : A) : M D A := λ w, (w, Normal a).

Definition throw {D A} (e : Exn) : M D A := λ w, (w, Throw e).

Definition bind {D A B} (m : M D A) (k : A → M D B) : M D B :=
  λ w, match m w with
       | (w1, Normal a) => k a w1
       | (w1, Throw e) => (w1, Throw e)
       end.

Notation "'let*' x := c 'in' k" := (bind c (λ x, k))
  (at level 10, x name, c at level 100, k at level 200).
Notation "c >> k" := (bind c (λ _, k))
  (at level 90, right associativity).

Definition gets {D A} (f : World D → A) : M D A := λ w, (w, Normal (f w)).

Definition modify {D} (f : World D → World D) : M D unit := λ w, (f w, Normal tt).

Definition liftCompletion {D A} (c : Completion A) : M D A := λ w, (w, c).

(** [try { m } catch (error) { handler error }] *)
Definition try_catch {D A} (m : M D A) (handler : Exn → M D A) : M D A :=
  λ w, match m w with
       | (w1, Normal a) => (w1, Normal a)
       | (w1, Throw e) => handler e w1
       end.

(** [try { m } finally { fin }]: the completion of [m] stands unless [fin]
    itself throws. *)
Definition try_finally {D A} (m : M D A) (fin : M D unit) : M D A :=
  λ w, match m w with
       | (w1, r) =>
           match fin w1 with
           | (w2, Normal _) => (w2, r)
           | (w2, Throw e) => (w2, Throw e)
           end
       end.

(** [for (const x of xs) { await f(x) }] *)
Fixpoint forEachM {D A} (f : A → M D unit) (xs : list A) : M D unit :=
  match xs with
  | [] => ret tt
  | x :: rest => f x >> forEachM f rest
  end.

(** [xs.map(f)] for an [f] that may throw. *)
Fixpoint mapM {D A B} (f : A → M D B) (xs : list A) : M D (list B) :=
  match xs with
  | [] => ret []
  | x :: rest =>
      let* y := f x in
      let* ys := mapM f rest in
      ret (y :: ys)
  end.

(** [console.error(message, ...)] *)
Definition consoleError {D} (message : string) : M D unit :=
  modify (emit (EvConsoleError message)).

(** ** Reading a trace *)

(** The hooks whose listener was called, in the order of the calls. *)
Definition invoked (tr : list Event) : list HooksMetaData :=
  omap (λ ev, match ev with EvListener h => Some h | _ => None end) tr.

(** The messages written with [console.error]. *)
Definition logged (tr : list Event) : list string :=
  omap (λ ev, match ev with EvConsoleError s => Some s | _ => None end) tr.

(** The calls made to the entity manager. *)
Definition issued (tr : list Event) : list DsCall :=
  omap (λ ev, match ev with EvDs c => Some c | _ => None end) tr.

(** A computation leaves the component [f] of the world as it found it. *)
Definition unchanged {D A X} (f : World D → X) (m : M D A) : Prop :=
  ∀ w, f (m w).1 = f w.

(** A component of the world that the datastore and the console cannot
    reach. *)
Definition outOfReach {D X} (f : World D → X) : Prop :=
  (∀ c w, f (emit (EvDs c) w) = f w) ∧
  (∀ s w, f (emit (EvConsoleError s) w) = f w) ∧
  (∀ h w, f (set_heap h w) = f w) ∧
  (∀ d w, f (set_db d w) = f w).

(** ** The custom-values methods, in the words of the specification *)



(** ** More ways of reading a computation *)

(** A computation only appends events to the trace, all of them of the
    kind [Q]. *)
Definition appendsOnly {D A} (Q : Event → Prop) (m : M D A) : Prop :=
  ∀ w, ∃ evs, trace (m w).1 = trace w ++ evs ∧ Forall Q evs.

(** An event is not a [softRemove] or a [remove] with options other than
    [so]. *)
Definition removesWith (so : option (gmap string Value)) (ev : Event) : Prop :=
  match ev with
  | EvDs (DsSoftRemove _ opts) | EvDs (DsRemove _ opts) => opts = so
  | _ => True
  end.

(** ** The records that the staging methods build *)

(** A raw query without a state, an entity (or, from [updateCollection],
    an array tagged as one) with a state, or an array tagged as a batch with
    a state. *)
Definition stagedShape (t : TransactionScopeObject) : bool :=
  match type t, object t, objectState t with
  | RawQuery, PRaw _, None => true
  | EntityCollection, PRef _, Some _ => true
  | EntityCollection, PArr _, Some Update => true
  | BulkEntityCollnection, PArr _, Some _ => true
  | _, _, _ => false
  end.

(** What one record contributes to the list that the bulk path saves: the
    record itself for the tag [EntityCollection], the elements of its array
    for the tag [BulkEntityCollnection], nothing for a raw query. *)
Definition bulkItems (t : TransactionScopeObject) : list BulkItem :=
  match type t with
  | EntityCollection => [ItemRecord t]
  | BulkEntityCollnection =>
      match object t with
      | PArr ls => ItemEntity <$> ls
      | PRaw _ | PRef _ => []
      end
  | RawQuery => []
  end.

Definition isRawQuery (t : TransactionScopeObject) : bool :=
  match type t with RawQuery => true | _ => false end.

Definition isQueryCall (c : DsCall) : bool :=
  match c with DsQuery _ _ => true | _ => false end.

(** ** Concrete collaborators and worlds, for the examples *)

Module Samples.

(** A datastore on which every call succeeds. *)
Definition okStore (c : DsCall) (h : Heap) (d : unit) : DsOutcome unit :=
  DsDone h d [].

(** A datastore that refuses every raw query. *)
Definition noQueryStore (c : DsCall) (h : Heap) (d : unit) : DsOutcome unit :=
  match c with
  | DsQuery _ _ => DsRaised (External "query failed")
  | _ => DsDone h d []
  end.

Definition changedFields (o : JsObject) : gmap string Value :=
  base.delete "entitySnapshot" (props o).

(** [OrmUtils.mergeDeep] as it acts on the targets of the examples: an
    instance of a class is left as it is, a plain object takes the entries
    of the source.  The generated maps of the examples hold no nested
    object, so that the merge of the entries is the deep one. *)
Definition shallowMerge (o : JsObject) (r : option (gmap string Value)) : JsObject :=
  match r with
  | Some m =>
      if negb (isEntityBase o) && String.eqb (className o) "Object"
      then mkJsObject (className o) (isEntityBase o) (m ∪ props o)
      else o
  | None => o
  end.

(** A datastore that answers every [insert] with one generated map. *)
Definition generatingStore (c : DsCall) (h : Heap) (d : unit) : DsOutcome unit :=
  match c with
  | DsInsert _ _ => DsDone h d [ {[ "id" := VNum 7 ]} ]
  | _ => DsDone h d []
  end.

Definition user (id : Z) (name : string) : JsObject :=
  mkJsObject "User" true {[ "id" := VNum id; "name" := VStr name ]}.

Definition userWithSnapshot (id : Z) (name : string) : JsObject :=
  setProp "entitySnapshot" (VObj [("name", VStr "before")]) (user id name).

(** A plain object literal, not an instance of [EntityBase]. *)
Definition plainObject : JsObject :=
  mkJsObject "Object" false {[ "id" := VNum 9 ]}.

(** References 1 and 2 denote users without a snapshot, 3 a user with one,
    every other reference a plain object. *)
Definition sampleHeap : Heap :=
  λ l, match l with
       | 1 => user 1 "ann"
       | 2 => user 2 "bob"
       | 3 => userWithSnapshot 3 "cyd"
       | _ => plainObject
       end.

Definition freshWorld : World unit := mkWorld sampleHeap [] [] tt [].

Definition rejectingHook : HooksMetaData :=
  mkHook (λ _, Rejected (External "hook rejected")) ∅ AfterCommit.

Definition throwingHook : HooksMetaData :=
  mkHook (λ _, Threw (External "hook threw")) ∅ AfterCommit.

Definition quietHook : HooksMetaData :=
  mkHook (λ _, Returned) {[ "name" := VStr "Roronoa Zoro" ]} AfterCommit.

Definition withHooks (hooks : list HooksMetaData) : World unit :=
  mkWorld sampleHeap [] hooks tt [].

Definition withQueue (q : list TransactionScopeObject) (hooks : list HooksMetaData) : World unit :=
  mkWorld sampleHeap q hooks tt [].

Definition rawRecord (text : string) (ps : list Value) : TransactionScopeObject :=
  mkTransactionScopeObject RawQuery (PRaw (mkIRawQuery text ps)) None None.

Definition customValues : TransactionScopeOptions :=
  mkOptions None {[ "name" := VStr "a"; "fn" := VFun "callableValue" ]}.

(** Custom values that name a [constructor]. *)
Definition otherClassValues : TransactionScopeOptions :=
  mkOptions (Some "id > 3")
    {[ "name" := VStr "a"; "constructor" := VObj [("name", VStr "Other")] ]}.

End Samples.

(** ** The class [TransactionScope] *)

Module TransactionScope.

Global Instance HookType_eq_dec : EqDecision HookType.
Proof. solve_decision. Defined.

Section Methods.

(** The collaborators: the entity manager of the data source, the getter
    [getPropertiesToUpdate] of [EntityBase] (declared in [./entitybase],
    which is not among the sources) and TypeORM's [OrmUtils.mergeDeep]. *)
Context {D : Type}.
Context (ds_exec : DsCall → Heap → D → DsOutcome D).
Context (getPropertiesToUpdate : JsObject → FieldMap).
Context (mergeDeep : JsObject → option FieldMap → JsObject).

(** One awaited call on the entity manager. *)
Definition ds (c : DsCall) : M D (list FieldMap) :=
  λ w, let w1 := emit (EvDs c) w in
       match ds_exec c (heap w) (db w) with
       | DsDone h d generatedMaps => (set_db d (set_heap h w1), Normal generatedMaps)
       | DsRaised e => (w1, Throw e)
       end.

(** [manager.transaction(work)], by TypeORM's contract: start a
    transaction, run [work], commit; if any of these raises, roll back
    (ignoring a failure of the rollback itself) and raise again. *)
Definition transaction {A} (work : M D A) : M D A :=
  try_catch
    (ds DsStartTransaction >>
     let* result := work in
     ds DsCommitTransaction >>
     ret result)
    (λ err,
       try_catch (ds DsRollbackTransaction >> ret tt) (λ _, ret tt) >>
       throw err).

Definition push (t : TransactionScopeObject) : M D unit :=
  modify (λ w, set_transactionObjects (_transactionObjects w ++ [t]) w).

Definition addRawQuery (q : string) (ps : list Value) : M D unit :=
  push {| type := RawQuery;
          object := PRaw {| query := q; parameters := ps |};
          objectState := None;
          options := None |}.

Definition resetTransactionObjects : M D unit :=
  modify (set_transactionObjects []).

Definition add (obj : nat) : M D unit :=
  push {| type := EntityCollection;
          object := PRef obj;
          objectState := Some Insert;
          options := None |}.

Definition addCollection (collection : list nat) : M D unit :=
  push {| type := BulkEntityCollnection;
          object := PArr collection;
          objectState := Some Insert;
          options := None |}.

Definition update (obj : nat) : M D unit :=
  push {| type := EntityCollection;
          object := PRef obj;
          objectState := Some Update;
          options := None |}.

Definition registerHook (props : HooksMetaData) : M D unit :=
  modify (λ w, set_hooks (_hooks w ++ [props]) w).

Definition filterHooks (ty : HookType) (w : World D) : list HooksMetaData :=
  filter (λ hook, hookType hook = ty) (_hooks w).

Definition excludeHooks (ty : HookType) (w : World D) : list HooksMetaData :=
  filter (λ hook, hookType hook ≠ ty) (_hooks w).

Definition registerAfterCommit (listener : FieldMap → ListenerResult) (data : FieldMap) : M D unit :=
  registerHook {| listener := listener; data := data; hookType := AfterCommit |}.

Definition resetAfterCommit : M D unit :=
  modify (λ w, set_hooks (excludeHooks AfterCommit w) w).

(** [obj[key] = value] *)
Definition assign (obj : nat) (key : string) (value : Value) : M D unit :=
  modify (λ w, set_heap (alter (setProp key value) obj (heap w)) w).

(** The loop over [Object.entries(options.values)] shared by the two
    custom-values methods.  The keys of an object are distinct, so the
    order of enumeration does not show in the result. *)
Definition copyCustomValues (obj : nat) (options : TransactionScopeOptions) : M D unit :=
  forEachM
    (λ entry, if isFunction entry.2 then ret tt else assign obj entry.1 entry.2)
    (map_to_list (values options)).

Definition insertWithCustomValues (obj : nat) (options : TransactionScopeOptions) : M D unit :=
  if truthyStr (where_ options)
  then throw (BadRequestException "can't pass criteria when inserting values")
  else
    copyCustomValues obj options >>
    push {| type := EntityCollection;
            object := PRef obj;
            objectState := Some Insert;
            options := Some options |}.

Definition updateWithCustomValues (obj : nat) (options : TransactionScopeOptions) : M D unit :=
  copyCustomValues obj options >>
  push {| type := EntityCollection;
          object := PRef obj;
          objectState := Some Update;
          options := Some options |}.

(** The [for ... of] loop returns from the method at the first element with
    a truthy [entitySnapshot], after staging every element with [update]. *)
Definition updateCollection (collection : list nat) : M D unit :=
  let* h := gets heap in
  if existsb (λ col, truthy (getProp h col "entitySnapshot")) collection
  then forEachM update collection
  else
    push {| type := EntityCollection;
            object := PArr collection;
            objectState := Some Update;
            options := None |}.

Definition delete (obj : nat) : M D unit :=
  push {| type := EntityCollection;
          object := PRef obj;
          objectState := Some Delete;
          options := None |}.

Definition hardDelete (obj : nat) : M D unit :=
  push {| type := EntityCollection;
          object := PRef obj;
          objectState := Some HardDelete;
          options := None |}.

Definition deleteCollection (collection : list nat) : M D unit :=
  push {| type := BulkEntityCollnection;
          object := PArr collection;
          objectState := Some Delete;
          options := None |}.

Definition hardDeleteCollection (collection : list nat) : M D unit :=
  push {| type := BulkEntityCollnection;
          object := PArr collection;
          objectState := Some HardDelete;
          options := None |}.

(** [hook.listener(hook.data)]: a listener that throws aborts the [map];
    one that returns yields a promise, fulfilled or rejected. *)
Definition invokeListener (hook : HooksMetaData) : M D Settled :=
  λ w, let w1 := emit (EvListener hook) w in
       match listener hook (data hook) with
       | Returned => (w1, Normal Fulfilled)
       | Threw e => (w1, Throw e)
       | Rejected e => (w1, Normal (RejectedWith e))
       end.

(** [await Promise.allSettled(promises)] resolves with the outcomes and
    never rejects. *)
Definition allSettled (promises : list Settled) : M D (list Settled) :=
  ret promises.

Definition processAfterCommitHooks : M D unit :=
  try_finally
    (try_catch
       (let* afterCommitsHooks := gets (filterHooks AfterCommit) in
        let* promises := mapM invokeListener afterCommitsHooks in
        allSettled promises >>
        ret tt)
       (λ error,
          consoleError "error while executing transaction scope AfterCommit Hooks" >>
          throw error))
    resetAfterCommit.

(** [...obj] for [obj = trObj.object as EntityBase[]]: only an array can
    be spread. *)
Definition spread (p : Payload) : Completion (list BulkItem) :=
  match p with
  | PArr ls => Normal (ItemEntity <$> ls)
  | PRef _ | PRaw _ => Throw (TypeError "object is not iterable")
  end.

(** The [forEach] callback of [extractCollectionsFromTransactions]: an
    [EntityCollection] record is pushed as it is, a
    [BulkEntityCollnection] record is spread, any other record goes to the
    raw-query list, as it is too. *)
Definition extractStep
    (acc : Completion (list BulkItem * list TransactionScopeObject))
    (trObj : TransactionScopeObject)
    : Completion (list BulkItem * list TransactionScopeObject) :=
  match acc with
  | Throw e => Throw e
  | Normal (entityCollection, rawQueryCollection) =>
      match type trObj with
      | EntityCollection =>
          Normal (entityCollection ++ [ItemRecord trObj], rawQueryCollection)
      | BulkEntityCollnection =>
          match spread (object trObj) with
          | Normal obj => Normal (entityCollection ++ obj, rawQueryCollection)
          | Throw e => Throw e
          end
      | RawQuery =>
          Normal (entityCollection, rawQueryCollection ++ [trObj])
      end
  end.

Definition extractCollectionsFromTransactions
    (transactionObjects : list TransactionScopeObject)
    : Completion (list BulkItem * list TransactionScopeObject) :=
  foldl extractStep (Normal ([], [])) transactionObjects.

(** [rawquery.query] and [rawquery.parameters] in the bulk path, where
    [rawquery] is a [TransactionScopeObject] cast to [IRawQuery]: the record
    has the properties [type], [object], [objectState] and [options] only,
    so either read yields [undefined]. *)
Definition recordProp (trObj : TransactionScopeObject) (key : string) : Value :=
  VUndefined.

(** [p[key]] for a payload [p]: a property of the raw-query literal, or of
    the heap object a reference denotes.  Arrays carry none of the keys read
    here. *)
Definition payloadProp (h : Heap) (p : Payload) (key : string) : Value :=
  match p with
  | PRaw q =>
      if String.eqb key "query" then VStr (query q)
      else if String.eqb key "parameters" then VArr (parameters q)
      else VUndefined
  | PRef l => getProp h l key
  | PArr _ => VUndefined
  end.

(** [entity instanceof EntityBase] *)
Definition instanceofEntityBase (h : Heap) (p : Payload) : bool :=
  match p with
  | PRef l => isEntityBase (h l)
  | PRaw _ | PArr _ => false
  end.

(** [Array.isArray(entity)] *)
Definition isArray (p : Payload) : bool :=
  match p with
  | PArr _ => true
  | PRaw _ | PRef _ => false
  end.

(** [entity.constructor.name].  An own property [constructor], which
    [obj[key] = value] can write, hides the constructor of the class. *)
Definition constructorName (h : Heap) (p : Payload) : Completion Value :=
  match p with
  | PRaw _ => Normal (VStr "Object")
  | PRef l =>
      match props (h l) !! "constructor" with
      | Some v => nameOf v
      | None => Normal (VStr (className (h l)))
      end
  | PArr _ => Normal (VStr "Array")
  end.

(** [entity.getPropertiesToUpdate], a getter that only instances of
    [EntityBase] have. *)
Definition propertiesToUpdate (h : Heap) (p : Payload) : FieldMap :=
  match p with
  | PRef l => getPropertiesToUpdate (h l)
  | PRaw _ | PArr _ => ∅
  end.

(** [OrmUtils.mergeDeep(transaction.object, insertResult)].  Only heap
    objects are mutable in this model. *)
Definition mergeInto (p : Payload) (insertResult : option FieldMap) : M D unit :=
  match p with
  | PRef l => modify (λ w, set_heap (alter (λ o, mergeDeep o insertResult) l (heap w)) w)
  | PRaw _ | PArr _ => ret tt
  end.

(** The [ObjectState.Update] case of the [switch]. *)
Definition replayUpdate (saveOptions : option SaveOptions)
    (transaction : TransactionScopeObject) : M D unit :=
  let entity := object transaction in
  let* h := gets heap in
  if instanceofEntityBase h entity then
    if truthy (payloadProp h entity "entitySnapshot") then
      let* entityClass := liftCompletion (constructorName h entity) in
      let propertiesToUpdate := propertiesToUpdate h entity in
      ds (DsUpdate entityClass (CriteriaId (payloadProp h entity "id")) propertiesToUpdate) >>
      ret tt
    else
      match options transaction with
      | Some opts =>
          let criteria :=
            if truthyStr (where_ opts)
            then CriteriaWhere (default "" (where_ opts))
            else CriteriaId (payloadProp h entity "id") in
          let* entityClass := liftCompletion (constructorName h entity) in
          ds (DsUpdate entityClass criteria (values opts)) >>
          ret tt
      | None =>
          ds (DsSave (SavePayload entity) saveOptions) >>
          ret tt
      end
  else if isArray entity then
    ds (DsSave (SavePayload entity) saveOptions) >>
    ret tt
  else
    consoleError "ENTITY NOT AN INSTANCE OF ENTITY BASE" >>
    throw (JsError "Entity is not an instance of entity base").

(** The [ObjectState.Insert] case of the [switch]. *)
Definition replayInsert (saveOptions : option SaveOptions)
    (transaction : TransactionScopeObject) : M D unit :=
  match options transaction with
  | Some opts =>
      let entity := object transaction in
      let* h := gets heap in
      let* entityClass := liftCompletion (constructorName h entity) in
      let* generatedMaps := ds (DsInsert entityClass (values opts)) in
      let insertResult := head generatedMaps in
      mergeInto (object transaction) insertResult
  | None =>
      ds (DsSave (SavePayload (object transaction)) saveOptions) >>
      ret tt
  end.

(** The body of the [for ... of] loop of the non-bulk path. *)
Definition replayTransaction (saveOptions : option SaveOptions)
    (transaction : TransactionScopeObject) : M D unit :=
  match type transaction with
  | RawQuery =>
      let* h := gets heap in
      let rawquery := object transaction in
      ds (DsQuery (payloadProp h rawquery "query")
                  (payloadProp h rawquery "parameters")) >>
      ret tt
  | EntityCollection | BulkEntityCollnection =>
      match objectState transaction with
      | Some Delete =>
          ds (DsSoftRemove (object transaction) saveOptions) >> ret tt
      | Some HardDelete =>
          ds (DsRemove (object transaction) saveOptions) >> ret tt
      | Some Update => replayUpdate saveOptions transaction
      | Some Insert => replayInsert saveOptions transaction
      | None => ret tt
      end
  end.

(** The callback that [commit] hands to [manager.transaction]. *)
Definition commitWork (saveOptions : option SaveOptions)
    (performEntityBulkUpsert : bool) : M D unit :=
  if performEntityBulkUpsert then
    let* transactionObjects := gets _transactionObjects in
    let* collections :=
      liftCompletion (extractCollectionsFromTransactions transactionObjects) in
    let entityCollection := collections.1 in
    let rawQueryCollection := collections.2 in
    ds (DsSave (SaveList entityCollection) saveOptions) >>
    if (0 <? length rawQueryCollection)%nat then
      forEachM
        (λ rawquery,
           ds (DsQuery (recordProp rawquery "query")
                       (recordProp rawquery "parameters")) >>
           ret tt)
        rawQueryCollection
    else ret tt
  else
    let* transactionObjects := gets _transactionObjects in
    forEachM (replayTransaction saveOptions) transactionObjects.

(** The [try]/[catch] statement of [commit]. *)
Definition commitTransaction (saveOptions : option SaveOptions)
    (performEntityBulkUpsert : bool) : M D unit :=
  try_catch
    (transaction (commitWork saveOptions performEntityBulkUpsert) >>
     resetTransactionObjects)
    (λ error, resetTransactionObjects >> throw error).

Definition commit (saveOptions : option SaveOptions)
    (removeOptions : option RemoveOptions)
    (performEntityBulkUpsert : bool) : M D unit :=
  commitTransaction saveOptions performEntityBulkUpsert >>
  processAfterCommitHooks.

(** ** Sequences of staging calls *)

Inductive StagingCall : Type :=
| CallAddRawQuery (q : string) (ps : list Value)
| CallAdd (obj : nat)
| CallAddCollection (collection : list nat)
| CallUpdate (obj : nat)
| CallUpdateCollection (collection : list nat)
| CallDelete (obj : nat)
| CallHardDelete (obj : nat)
| CallDeleteCollection (collection : list nat)
| CallHardDeleteCollection (collection : list nat)
| CallInsertWithCustomValues (obj : nat) (options : TransactionScopeOptions)
| CallUpdateWithCustomValues (obj : nat) (options : TransactionScopeOptions)
| CallRegisterAfterCommit (listener : FieldMap → ListenerResult) (data : FieldMap)
| CallResetAfterCommit.

Definition stage (c : StagingCall) : M D unit :=
  match c with
  | CallAddRawQuery q ps => addRawQuery q ps
  | CallAdd obj => add obj
  | CallAddCollection collection => addCollection collection
  | CallUpdate obj => update obj
  | CallUpdateCollection collection => updateCollection collection
  | CallDelete obj => delete obj
  | CallHardDelete obj => hardDelete obj
  | CallDeleteCollection collection => deleteCollection collection
  | CallHardDeleteCollection collection => hardDeleteCollection collection
  | CallInsertWithCustomValues obj options => insertWithCustomValues obj options
  | CallUpdateWithCustomValues obj options => updateWithCustomValues obj options
  | CallRegisterAfterCommit listener data => registerAfterCommit listener data
  | CallResetAfterCommit => resetAfterCommit
  end.

(** A caller making the calls one after the other; a call that throws
    leaves the scope as it is and the caller goes on. *)
Definition stageAll (calls : list StagingCall) (w : World D) : World D :=
  foldl (λ w c, (stage c w).1) w calls.

(** The entities that the custom-values calls of a sequence write to. *)
Definition customTargets (calls : list StagingCall) : list nat :=
  omap (λ c, match c with
             | CallInsertWithCustomValues obj _ => Some obj
             | CallUpdateWithCustomValues obj _ => Some obj
             | _ => None
             end) calls.

(** ** The dispatch table, in the words of the specification *)

(** "The entity carries a snapshot-diff": its [entitySnapshot] is set. *)
Definition carriesSnapshot (h : Heap) (l : nat) : bool :=
  truthy (getProp h l "entitySnapshot").

(** The criteria of a targeted update: [options.criteria], defaulting to
    a match by identity when there is none (or an empty one). *)
Definition specCriteria (h : Heap) (l : nat) (opts : TransactionScopeOptions) : Criteria :=
  match where_ opts with
  | Some s => if decide (s = "") then CriteriaId (getProp h l "id") else CriteriaWhere s
  | None => CriteriaId (getProp h l "id")
  end.

(** The one datastore call that the specification asks for a record, by
    (kind, state): a raw query is executed with its text and parameters, a
    Delete is a [softRemove], a HardDelete a [remove]; an Update of an entity
    is, in this order of priority, a field update by id of the changed
    fields when the entity carries a snapshot, a field update by
    [options] when the record has some, and a save of the entity
    otherwise; a field update goes to the class that
    [entity.constructor.name] names.  [None] where the specification words
    cited here name no call. *)
Definition specDispatch (saveOptions : option SaveOptions) (h : Heap)
    (t : TransactionScopeObject) : option DsCall :=
  match type t with
  | RawQuery =>
      match object t with
      | PRaw q => Some (DsQuery (VStr (query q)) (VArr (parameters q)))
      | _ => None
      end
  | EntityCollection | BulkEntityCollnection =>
      match objectState t with
      | Some Delete => Some (DsSoftRemove (object t) saveOptions)
      | Some HardDelete => Some (DsRemove (object t) saveOptions)
      | Some Update =>
          match object t with
          | PRef l =>
              if isEntityBase (h l) then
                if carriesSnapshot h l then
                  match constructorName h (PRef l) with
                  | Normal entityClass =>
                      Some (DsUpdate entityClass (CriteriaId (getProp h l "id"))
                              (getPropertiesToUpdate (h l)))
                  | Throw _ => None
                  end
                else
                  match options t with
                  | Some opts =>
                      match constructorName h (PRef l) with
                      | Normal entityClass =>
                          Some (DsUpdate entityClass (specCriteria h l opts)
                                  (values opts))
                      | Throw _ => None
                      end
                  | None => Some (DsSave (SavePayload (PRef l)) saveOptions)
                  end
              else None
          | _ => None
          end
      | _ => None
      end
  end.

(** The hooks that a run over [hooks] calls: every hook up to and
    including the first whose listener throws. *)
Fixpoint calledHooks (hooks : list HooksMetaData) : list HooksMetaData :=
  match hooks with
  | [] => []
  | hook :: rest =>
      hook :: match listener hook (data hook) with
              | Threw _ => []
              | Returned | Rejected _ => calledHooks rest
              end
  end.

End Methods.

(** ** Properties *)

Section Properties.

Context {D : Type}.
Context (ds_exec : DsCall → Heap → D → DsOutcome D).
Context (getPropertiesToUpdate : JsObject → FieldMap).
Context (mergeDeep : JsObject → option FieldMap → JsObject).

Local Abbreviation ds := (ds ds_exec).
Local Abbreviation transaction := (transaction ds_exec).
Local Abbreviation replayTransaction := (replayTransaction ds_exec getPropertiesToUpdate mergeDeep).
Local Abbreviation replayUpdate := (replayUpdate ds_exec getPropertiesToUpdate).
Local Abbreviation replayInsert := (replayInsert ds_exec mergeDeep).
Local Abbreviation commitWork := (commitWork ds_exec getPropertiesToUpdate mergeDeep).
Local Abbreviation commitTransaction := (commitTransaction ds_exec getPropertiesToUpdate mergeDeep).
Local Abbreviation commit := (commit ds_exec getPropertiesToUpdate mergeDeep).
Local Abbreviation specDispatch := (specDispatch getPropertiesToUpdate).

(** *** Running the combinators *)

Lemma bind_normal {A B} (m : M D A) (k : A → M D B) w w1 a :
  m w = (w1, Normal a) → bind m k w = k a w1.
Proof. intros H. unfold bind. by rewrite H. Qed.

Lemma bind_throw {A B} (m : M D A) (k : A → M D B) w w1 e :
  m w = (w1, Throw e) → bind m k w = (w1, Throw e).
Proof. intros H. unfold bind. by rewrite H. Qed.

Lemma forEachM_app {A} (f : A → M D unit) xs ys w :
  forEachM f (xs ++ ys) w = (forEachM f xs >> forEachM f ys) w.
Proof.
  revert w. induction xs as [|x xs IH]; intros w; simpl.
  - reflexivity.
  - unfold bind in *.
    destruct (f x w) as [w1 [[]|e]]; [apply IH | reflexivity].
Qed.

(** *** Frame lemmas: what a computation leaves alone *)

Section Frame.

Context {X : Type} (f : World D → X).

Lemma unchanged_ret {A} (a : A) : unchanged f (ret a).
Proof. intros w. reflexivity. Qed.

Lemma unchanged_throw {A} e : unchanged f (@throw D A e).
Proof. intros w. reflexivity. Qed.

Lemma unchanged_gets {A} (g : World D → A) : unchanged f (gets g).
Proof. intros w. reflexivity. Qed.

Lemma unchanged_liftCompletion {A} (c : Completion A) : unchanged f (liftCompletion c).
Proof. intros w. reflexivity. Qed.

Lemma unchanged_modify (g : World D → World D) :
  (∀ w, f (g w) = f w) → unchanged f (modify g).
Proof. intros H w. apply H. Qed.

Lemma unchanged_bind {A B} (m : M D A) (k : A → M D B) :
  unchanged f m → (∀ a, unchanged f (k a)) → unchanged f (bind m k).
Proof.
  intros Hm Hk w. unfold bind. specialize (Hm w).
  destruct (m w) as [w1 [a|e]]; simpl in *; [|done].
  by rewrite Hk.
Qed.

Lemma unchanged_try_catch {A} (m : M D A) (handler : Exn → M D A) :
  unchanged f m → (∀ e, unchanged f (handler e)) → unchanged f (try_catch m handler).
Proof.
  intros Hm Hh w. unfold try_catch. specialize (Hm w).
  destruct (m w) as [w1 [a|e]]; simpl in *; [done|].
  by rewrite Hh.
Qed.

Lemma unchanged_try_finally {A} (m : M D A) (fin : M D unit) :
  unchanged f m → unchanged f fin → unchanged f (try_finally m fin).
Proof.
  intros Hm Hf w. unfold try_finally. specialize (Hm w).
  destruct (m w) as [w1 r]. specialize (Hf w1).
  destruct (fin w1) as [w2 [[]|e]]; simpl in *; congruence.
Qed.

Lemma unchanged_forEachM {A} (g : A → M D unit) xs :
  (∀ x, unchanged f (g x)) → unchanged f (forEachM g xs).
Proof.
  intros Hg. induction xs as [|x xs IH]; simpl.
  - apply unchanged_ret.
  - apply unchanged_bind; auto.
Qed.

Lemma unchanged_mapM {A B} (g : A → M D B) xs :
  (∀ x, unchanged f (g x)) → unchanged f (mapM g xs).
Proof.
  intros Hg. induction xs as [|x xs IH]; simpl.
  - apply unchanged_ret.
  - apply unchanged_bind; [auto|]. intros y.
    apply unchanged_bind; [auto|]. intros ys. apply unchanged_ret.
Qed.

Lemma unchanged_ds c : outOfReach f → unchanged f (ds c).
Proof.
  intros (He & _ & Hh & Hd) w. unfold TransactionScope.ds.
  destruct (ds_exec c (heap w) (db w)); simpl.
  - by rewrite Hd, Hh, He.
  - apply He.
Qed.

Lemma unchanged_consoleError s : outOfReach f → unchanged f (consoleError s).
Proof. intros (_ & Hc & _) w. apply Hc. Qed.

Lemma unchanged_transaction {A} (work : M D A) :
  outOfReach f → unchanged f work → unchanged f (transaction work).
Proof.
  intros Hout Hw. unfold TransactionScope.transaction.
  apply unchanged_try_catch.
  - apply unchanged_bind; [by apply unchanged_ds|]. intros _.
    apply unchanged_bind; [done|]. intros a.
    apply unchanged_bind; [by apply unchanged_ds|]. intros _.
    apply unchanged_ret.
  - intros e. apply unchanged_bind; [|intros; apply unchanged_throw].
    apply unchanged_try_catch; [|intros; apply unchanged_ret].
    apply unchanged_bind; [by apply unchanged_ds|]. intros; apply unchanged_ret.
Qed.

End Frame.

Lemma hooks_outOfReach : outOfReach (@_hooks D).
Proof. repeat split. Qed.

Lemma queue_outOfReach : outOfReach (@_transactionObjects D).
Proof. repeat split. Qed.

Lemma invoked_emit_other (ev : Event) (w : World D) :
  isListenerEvent ev = false → invoked (trace (emit ev w)) = invoked (trace w).
Proof.
  intros H. unfold invoked. simpl. rewrite omap_app. simpl.
  destruct ev; simpl in *; try discriminate; apply app_nil_r.
Qed.

Lemma invoked_outOfReach : outOfReach (λ w : World D, invoked (trace w)).
Proof.
  repeat split; intros; try reflexivity; by apply invoked_emit_other.
Qed.

Lemma unchanged_mergeInto {X} (f : World D → X) p r :
  outOfReach f → unchanged f (mergeInto mergeDeep p r).
Proof.
  intros (_ & _ & Hh & _). destruct p; simpl;
    [apply unchanged_ret | | apply unchanged_ret].
  apply unchanged_modify. intros w. apply Hh.
Qed.

Lemma unchanged_replayTransaction {X} (f : World D → X) so t :
  outOfReach f → unchanged f (replayTransaction so t).
Proof.
  intros Hout.
  assert (Hcall : ∀ c, unchanged f (ds c >> ret tt)).
  { intros c. apply unchanged_bind; [by apply unchanged_ds|].
    intros; apply unchanged_ret. }
  unfold TransactionScope.replayTransaction.
  destruct (type t).
  - apply unchanged_bind; [apply unchanged_gets|]. intros h. apply Hcall.
  - destruct (objectState t) as [[]|]; try apply Hcall; try apply unchanged_ret.
    + unfold TransactionScope.replayInsert. destruct (options t).
      * apply unchanged_bind; [apply unchanged_gets|]. intros h.
        apply unchanged_bind; [apply unchanged_liftCompletion|]. intros cls.
        apply unchanged_bind; [by apply unchanged_ds|]. intros maps.
        by apply unchanged_mergeInto.
      * apply Hcall.
    + unfold TransactionScope.replayUpdate.
      apply unchanged_bind; [apply unchanged_gets|]. intros h.
      repeat case_match; try apply Hcall;
        try (apply unchanged_bind; [apply unchanged_liftCompletion|];
             intros cls; apply Hcall).
      apply unchanged_bind; [by apply unchanged_consoleError|].
      intros; apply unchanged_throw.
  - destruct (objectState t) as [[]|]; try apply Hcall; try apply unchanged_ret.
    + unfold TransactionScope.replayInsert. destruct (options t).
      * apply unchanged_bind; [apply unchanged_gets|]. intros h.
        apply unchanged_bind; [apply unchanged_liftCompletion|]. intros cls.
        apply unchanged_bind; [by apply unchanged_ds|]. intros maps.
        by apply unchanged_mergeInto.
      * apply Hcall.
    + unfold TransactionScope.replayUpdate.
      apply unchanged_bind; [apply unchanged_gets|]. intros h.
      repeat case_match; try apply Hcall;
        try (apply unchanged_bind; [apply unchanged_liftCompletion|];
             intros cls; apply Hcall).
      apply unchanged_bind; [by apply unchanged_consoleError|].
      intros; apply unchanged_throw.
Qed.

Lemma unchanged_commitWork {X} (f : World D → X) so bulk :
  outOfReach f → unchanged f (commitWork so bulk).
Proof.
  intros Hout. unfold TransactionScope.commitWork. destruct bulk.
  - apply unchanged_bind; [apply unchanged_gets|]. intros q.
    apply unchanged_bind; [apply unchanged_liftCompletion|]. intros cs.
    apply unchanged_bind; [by apply unchanged_ds|]. intros _.
    case_match; [|apply unchanged_ret].
    apply unchanged_forEachM. intros r.
    apply unchanged_bind; [by apply unchanged_ds|]. intros; apply unchanged_ret.
  - apply unchanged_bind; [apply unchanged_gets|]. intros q.
    apply unchanged_forEachM. intros t. by apply unchanged_replayTransaction.
Qed.

Lemma unchanged_commitTransaction {X} (f : World D → X) so bulk :
  outOfReach f → (∀ q w, f (set_transactionObjects q w) = f w) →
  unchanged f (commitTransaction so bulk).
Proof.
  intros Hout Hq. unfold TransactionScope.commitTransaction.
  apply unchanged_try_catch.
  - apply unchanged_bind.
    + apply unchanged_transaction; [done|]. by apply unchanged_commitWork.
    + intros _. apply unchanged_modify. intros w. apply Hq.
  - intros e. apply unchanged_bind; [|intros; apply unchanged_throw].
    apply unchanged_modify. intros w. apply Hq.
Qed.

(** *** The shape of [commit] *)

Lemma try_catch_normal {A} (m : M D A) handler w w1 a :
  m w = (w1, Normal a) → try_catch m handler w = (w1, Normal a).
Proof. intros H. unfold try_catch. by rewrite H. Qed.

Lemma try_catch_throw {A} (m : M D A) handler w w1 e :
  m w = (w1, Throw e) → try_catch m handler w = handler e w1.
Proof. intros H. unfold try_catch. by rewrite H. Qed.

Lemma transaction_work_throws {A} (work : M D A) w wb ms w1 e :
  ds DsStartTransaction w = (wb, Normal ms) →
  work wb = (w1, Throw e) →
  transaction work w = ((ds DsRollbackTransaction w1).1, Throw e).
Proof.
  intros Hstart Hwork. unfold TransactionScope.transaction.
  erewrite try_catch_throw.
  2:{ erewrite bind_normal by exact Hstart. by apply bind_throw. }
  unfold bind, try_catch.
  destruct (ds DsRollbackTransaction w1) as [w2 [a|e']]; reflexivity.
Qed.

Lemma commitTransaction_of_throw so bulk w w2 e :
  transaction (commitWork so bulk) w = (w2, Throw e) →
  commitTransaction so bulk w = (set_transactionObjects [] w2, Throw e).
Proof.
  intros H. unfold TransactionScope.commitTransaction.
  erewrite try_catch_throw by (by apply bind_throw). reflexivity.
Qed.

Lemma commitTransaction_of_normal so bulk w w2 :
  transaction (commitWork so bulk) w = (w2, Normal tt) →
  commitTransaction so bulk w = (set_transactionObjects [] w2, Normal tt).
Proof.
  intros H. unfold TransactionScope.commitTransaction.
  erewrite try_catch_normal; [reflexivity|].
  erewrite bind_normal by exact H. reflexivity.
Qed.

Lemma commitTransaction_resets so bulk w :
  _transactionObjects (commitTransaction so bulk w).1 = [].
Proof.
  destruct (transaction (commitWork so bulk) w) as [w2 [[]|e]] eqn:H.
  - by rewrite (commitTransaction_of_normal _ _ _ _ H).
  - by rewrite (commitTransaction_of_throw _ _ _ _ _ H).
Qed.

Lemma commit_of_throw so ro bulk w w1 e :
  commitTransaction so bulk w = (w1, Throw e) →
  commit so ro bulk w = (w1, Throw e).
Proof. intros H. unfold TransactionScope.commit. by apply bind_throw. Qed.

Lemma commit_of_normal so ro bulk w w1 :
  commitTransaction so bulk w = (w1, Normal tt) →
  commit so ro bulk w = processAfterCommitHooks w1.
Proof. intros H. unfold TransactionScope.commit. by erewrite bind_normal. Qed.

(** *** Running the hooks *)

Lemma filterHooks_all (w : World D) : filterHooks AfterCommit w = _hooks w.
Proof.
  unfold filterHooks. induction (_hooks w) as [|hook hooks IH]; [done|].
  rewrite filter_cons, IH. destruct (hookType hook). by case_decide.
Qed.

Lemma excludeHooks_none (w : World D) : excludeHooks AfterCommit w = [].
Proof.
  unfold excludeHooks. induction (_hooks w) as [|hook hooks IH]; [done|].
  rewrite filter_cons, IH. destruct (hookType hook). by case_decide.
Qed.

Lemma invoked_listeners (tr : list Event) (hooks : list HooksMetaData) :
  invoked (tr ++ (EvListener <$> hooks)) = invoked tr ++ hooks.
Proof.
  unfold invoked. rewrite omap_app. f_equal.
  induction hooks as [|hook hooks IH]; simpl; [done | by f_equal].
Qed.

Lemma invokeListener_eq (hook : HooksMetaData) (w : World D) :
  invokeListener hook w =
    (emit (EvListener hook) w,
     match listener hook (data hook) with
     | Returned => Normal Fulfilled
     | Threw e => Throw e
     | Rejected e => Normal (RejectedWith e)
     end).
Proof. unfold invokeListener. by destruct (listener hook (data hook)). Qed.

Lemma mapM_invokeListener (hooks : list HooksMetaData) (w : World D) :
  ∃ r, mapM invokeListener hooks w =
         (mkWorld (heap w) (_transactionObjects w) (_hooks w) (db w)
                  (trace w ++ (EvListener <$> calledHooks hooks)), r)
       ∧ (∀ promises, r = Normal promises → calledHooks hooks = hooks).
Proof.
  revert w. induction hooks as [|hook hooks IH]; intros w; simpl.
  - exists (Normal []). split; [|done].
    unfold ret. rewrite app_nil_r. by destruct w.
  - unfold bind. rewrite invokeListener_eq.
    destruct (listener hook (data hook)) as [|e|e]; simpl.
    + destruct (IH (emit (EvListener hook) w)) as (r & Hrun & Hall).
      rewrite Hrun. simpl. rewrite <- app_assoc. simpl.
      destruct r as [promises|e]; eexists; (split; [reflexivity|]).
      * intros ? _. f_equal. by eapply Hall.
      * done.
    + eexists. split; [reflexivity | done].
    + destruct (IH (emit (EvListener hook) w)) as (r & Hrun & Hall).
      rewrite Hrun. simpl. rewrite <- app_assoc. simpl.
      destruct r as [promises|e']; eexists; (split; [reflexivity|]).
      * intros ? _. f_equal. by eapply Hall.
      * done.
Qed.

Lemma processAfterCommitHooks_eq (w : World D) :
  processAfterCommitHooks w =
    match mapM invokeListener (_hooks w) w with
    | (w1, Normal _) => (set_hooks [] w1, Normal tt)
    | (w1, Throw e) =>
        (set_hooks []
           (emit (EvConsoleError
                    "error while executing transaction scope AfterCommit Hooks") w1),
         Throw e)
    end.
Proof.
  unfold processAfterCommitHooks, try_finally, try_catch, resetAfterCommit,
    bind, gets, allSettled, ret, consoleError, throw, modify.
  rewrite filterHooks_all.
  destruct (mapM invokeListener (_hooks w) w) as [w1 [promises|e]];
    simpl; by rewrite excludeHooks_none.
Qed.

(** What [processAfterCommitHooks] does, whatever the listeners do: it
    calls the hooks up to the first that throws, empties the registry, and
    returns normally only if it has called them all. *)
Lemma processAfterCommitHooks_runs (w : World D) :
  invoked (trace (processAfterCommitHooks w).1)
    = invoked (trace w) ++ calledHooks (_hooks w)
  ∧ _hooks (processAfterCommitHooks w).1 = []
  ∧ _transactionObjects (processAfterCommitHooks w).1 = _transactionObjects w
  ∧ ((processAfterCommitHooks w).2 = Normal tt → calledHooks (_hooks w) = _hooks w).
Proof.
  rewrite processAfterCommitHooks_eq.
  destruct (mapM_invokeListener (_hooks w) w) as (r & Hrun & Hall).
  rewrite Hrun. destruct r as [promises|e]; simpl.
  - rewrite invoked_listeners. repeat split. intros _. by eapply Hall.
  - unfold invoked at 1. rewrite omap_app. simpl. rewrite app_nil_r.
    fold (invoked (trace w ++ (EvListener <$> calledHooks (_hooks w)))).
    rewrite invoked_listeners. repeat split. discriminate.
Qed.

(** *** Replaying one record *)

Lemma trace_ds c (w : World D) : trace (ds c w).1 = trace w ++ [EvDs c].
Proof.
  unfold TransactionScope.ds.
  by destruct (ds_exec c (heap w) (db w)).
Qed.

Lemma trace_call c (w : World D) :
  trace ((ds c >> ret tt) w).1 = trace w ++ [EvDs c].
Proof.
  unfold bind. pose proof (trace_ds c w) as H.
  by destruct (ds c w) as [w1 [a|e]].
Qed.

Lemma queue_ds c (w : World D) :
  _transactionObjects (ds c w).1 = _transactionObjects w.
Proof. apply (unchanged_ds _ c queue_outOfReach). Qed.

Lemma truthyStr_where (s : string) :
  truthyStr (Some s) = if decide (s = "") then false else true.
Proof.
  simpl. case_decide as H; [by subst|].
  destruct (String.eqb s "") eqn:E; [|done].
  by apply String.eqb_eq in E.
Qed.

(** The loop body issues the call the dispatch table names, and nothing
    else. *)
Lemma replayTransaction_dispatch so t (w : World D) c :
  specDispatch so (heap w) t = Some c →
  replayTransaction so t w = (ds c >> ret tt) w.
Proof.
  intros H. unfold TransactionScope.specDispatch in H.
  assert (Hupd :
            match object t with
            | PRef l =>
                if isEntityBase (heap w l) then
                  if carriesSnapshot (heap w) l then
                    match constructorName (heap w) (PRef l) with
                    | Normal entityClass =>
                        Some (DsUpdate entityClass (CriteriaId (getProp (heap w) l "id"))
                                (getPropertiesToUpdate (heap w l)))
                    | Throw _ => None
                    end
                  else
                    match options t with
                    | Some opts =>
                        match constructorName (heap w) (PRef l) with
                        | Normal entityClass =>
                            Some (DsUpdate entityClass (specCriteria (heap w) l opts)
                                    (values opts))
                        | Throw _ => None
                        end
                    | None => Some (DsSave (SavePayload (PRef l)) so)
                    end
                else None
            | _ => None
            end = Some c →
            replayUpdate so t w = (ds c >> ret tt) w).
  { clear H. intros H.
    unfold TransactionScope.replayUpdate, bind at 1, gets.
    destruct (object t) as [q|l|ls]; try discriminate.
    cbn [instanceofEntityBase payloadProp propertiesToUpdate].
    destruct (isEntityBase (heap w l)); try discriminate.
    unfold carriesSnapshot in H.
    destruct (truthy (getProp (heap w) l "entitySnapshot")).
    { destruct (constructorName (heap w) (PRef l)) as [cls|e] eqn:Hc;
        try discriminate.
      injection H as <-. by unfold bind at 1, liftCompletion. }
    destruct (options t) as [opts|]; [|by injection H as <-].
    destruct (constructorName (heap w) (PRef l)) as [cls|e] eqn:Hc;
      try discriminate.
    injection H as <-. unfold bind at 1, liftCompletion.
    unfold specCriteria. destruct (where_ opts) as [s|]; [|done].
    rewrite truthyStr_where. by case_decide. }
  unfold TransactionScope.replayTransaction.
  destruct (type t).
  - destruct (object t) as [q|l|ls]; try discriminate.
    injection H as <-. reflexivity.
  - destruct (objectState t) as [[]|] eqn:Hst; try discriminate.
    + by apply Hupd.
    + by injection H as <-.
    + by injection H as <-.
  - destruct (objectState t) as [[]|] eqn:Hst; try discriminate.
    + by apply Hupd.
    + by injection H as <-.
    + by injection H as <-.
Qed.

Lemma commitWork_replays so (w : World D) :
  commitWork so false w =
    forEachM (replayTransaction so) (_transactionObjects w) w.
Proof. reflexivity. Qed.

(** *** The claims about [commit] *)

(** C1.  Whatever was staged, the pending-change queue is empty once
    [commit] has returned or raised.  When the datastore transaction
    raises, and in particular when a step of the replay raises, [commit]
    raises that same error and calls no AfterCommit listener. *)
Theorem C1_commit_empties_queue_and_reraises
    (calls : list StagingCall) (w0 : World D) so ro bulk :
  let w := stageAll calls w0 in
  _transactionObjects (commit so ro bulk w).1 = []
  ∧ (∀ w2 e,
       transaction (commitWork so bulk) w = (w2, Throw e) →
       (commit so ro bulk w).2 = Throw e
       ∧ invoked (trace (commit so ro bulk w).1) = invoked (trace w))
  ∧ (∀ wb ms w1 e,
       ds DsStartTransaction w = (wb, Normal ms) →
       commitWork so bulk wb = (w1, Throw e) →
       (commit so ro bulk w).2 = Throw e
       ∧ invoked (trace (commit so ro bulk w).1) = invoked (trace w)).
Proof.
  intros w. generalize w. clear w calls w0. intros w.
  assert (Hfail : ∀ w2 e,
    transaction (commitWork so bulk) w = (w2, Throw e) →
    (commit so ro bulk w).2 = Throw e
    ∧ invoked (trace (commit so ro bulk w).1) = invoked (trace w)).
  { intros w2 e Htx.
    pose proof (commitTransaction_of_throw _ _ _ _ _ Htx) as Hct.
    rewrite (commit_of_throw _ ro _ _ _ _ Hct). split; [done|].
    pose proof (unchanged_commitTransaction
                  (λ w, invoked (trace w)) so bulk invoked_outOfReach) as Hinv.
    rewrite <- (Hinv (λ _ _, eq_refl) w), Hct. reflexivity. }
  split; [|split].
  - pose proof (commitTransaction_resets so bulk w) as Hreset.
    destruct (commitTransaction so bulk w) as [w1 [[]|e]] eqn:Hct.
    + rewrite (commit_of_normal _ ro _ _ _ Hct).
      destruct (processAfterCommitHooks_runs w1) as (_ & _ & Hq & _).
      by rewrite Hq.
    + by rewrite (commit_of_throw _ ro _ _ _ _ Hct).
  - exact Hfail.
  - intros wb ms w1 e Hstart Hwork.
    eapply Hfail. by eapply transaction_work_throws.
Qed.

(** C8.  In non-bulk mode, when the replay reaches an Update record whose
    target is neither an instance of [EntityBase] nor an array, the message
    is written to the console, the transaction is rolled back without any
    later record being replayed, and [commit] raises the error (with the
    queue emptied). *)
Theorem C8_update_of_unrecognised_target_aborts
    so ro (w : World D) before t after wb ms w1 :
  _transactionObjects w = before ++ t :: after →
  ds DsStartTransaction w = (wb, Normal ms) →
  forEachM (replayTransaction so) before wb = (w1, Normal tt) →
  type t ≠ RawQuery →
  objectState t = Some Update →
  instanceofEntityBase (heap w1) (object t) = false →
  isArray (object t) = false →
  (commit so ro false w).2 = Throw (JsError "Entity is not an instance of entity base")
  ∧ trace (commit so ro false w).1
      = trace w1 ++ [EvConsoleError "ENTITY NOT AN INSTANCE OF ENTITY BASE";
                     EvDs DsRollbackTransaction]
  ∧ _transactionObjects (commit so ro false w).1 = [].
Proof.
  intros Hq Hstart Hbefore Hty Hst Hinst Harr.
  assert (Hstep : replayTransaction so t w1 =
            (emit (EvConsoleError "ENTITY NOT AN INSTANCE OF ENTITY BASE") w1,
             Throw (JsError "Entity is not an instance of entity base"))).
  { assert (Hupd : replayUpdate so t w1 =
              (emit (EvConsoleError "ENTITY NOT AN INSTANCE OF ENTITY BASE") w1,
               Throw (JsError "Entity is not an instance of entity base"))).
    { unfold TransactionScope.replayUpdate, bind at 1, gets.
      by rewrite Hinst, Harr. }
    unfold TransactionScope.replayTransaction. rewrite Hst.
    by destruct (type t). }
  assert (Hwork : commitWork so false wb =
            (emit (EvConsoleError "ENTITY NOT AN INSTANCE OF ENTITY BASE") w1,
             Throw (JsError "Entity is not an instance of entity base"))).
  { rewrite commitWork_replays.
    pose proof (queue_ds DsStartTransaction w) as Hqb.
    rewrite Hstart in Hqb. simpl in Hqb. rewrite Hqb, Hq, forEachM_app.
    erewrite bind_normal by exact Hbefore. simpl.
    by erewrite bind_throw by exact Hstep. }
  pose proof (transaction_work_throws _ _ _ _ _ _ Hstart Hwork) as Htx.
  pose proof (commitTransaction_of_throw _ _ _ _ _ Htx) as Hct.
  rewrite (commit_of_throw _ ro _ _ _ _ Hct). simpl.
  split; [done|]. split; [|done].
  rewrite trace_ds. simpl. by rewrite <- app_assoc.
Qed.

(** *** The staging methods *)

Lemma forEachM_update (collection : list nat) (w : World D) :
  forEachM update collection w =
    (set_transactionObjects
       (_transactionObjects w
          ++ ((λ obj, mkTransactionScopeObject EntityCollection (PRef obj)
                        (Some Update) None) <$> collection)) w,
     Normal tt).
Proof.
  revert w. induction collection as [|obj rest IH]; intros w; simpl.
  - unfold ret. rewrite app_nil_r. by destruct w.
  - unfold bind, update, push, modify. rewrite IH.
    unfold set_transactionObjects. simpl. by rewrite <- app_assoc.
Qed.

(** What [updateCollection] stages: one Update record per element when
    some element has a truthy [entitySnapshot], else one record, tagged
    [EntityCollection], that holds the array. *)
Lemma updateCollection_stages (collection : list nat) (w : World D) :
  updateCollection collection w =
    (set_transactionObjects
       (_transactionObjects w ++
          if existsb (λ col, truthy (getProp (heap w) col "entitySnapshot")) collection
          then (λ obj, mkTransactionScopeObject EntityCollection (PRef obj)
                         (Some Update) None) <$> collection
          else [mkTransactionScopeObject EntityCollection (PArr collection)
                  (Some Update) None]) w,
     Normal tt).
Proof.
  unfold updateCollection, bind, gets.
  destruct (existsb _ collection); [apply forEachM_update | reflexivity].
Qed.

(** The copying loop over a list of entries with distinct keys. *)
Lemma copy_entries obj (entries : list (string * Value)) (w : World D) :
  NoDup entries.*1 →
  ∃ w', forEachM
          (λ entry, if isFunction entry.2 then ret tt
                    else assign obj entry.1 entry.2) entries w = (w', Normal tt)
    ∧ _transactionObjects w' = _transactionObjects w
    ∧ _hooks w' = _hooks w
    ∧ trace w' = trace w
    ∧ (∀ l, l ≠ obj → heap w' l = heap w l)
    ∧ ∀ key, props (heap w' obj) !! key =
        match (list_to_map entries : gmap string Value) !! key with
        | Some v => if isFunction v then props (heap w obj) !! key else Some v
        | None => props (heap w obj) !! key
        end.
Proof.
  revert w. induction entries as [|[k v] entries IH]; intros w Hnd.
  - exists w. simpl. repeat split.
  - apply NoDup_cons in Hnd as [Hk Hnd]. simpl.
    set (w1 := ((if isFunction v then ret tt else assign obj k v) w).1).
    assert (Hstep : (if isFunction v then ret tt else assign obj k v) w
                    = (w1, Normal tt)).
    { subst w1. by destruct (isFunction v). }
    destruct (IH w1 Hnd) as (w' & Hrun & Hq & Hh & Ht & Hother & Hprops).
    exists w'. erewrite bind_normal by exact Hstep.
    split; [exact Hrun|].
    assert (Hw1 : _transactionObjects w1 = _transactionObjects w
                  ∧ _hooks w1 = _hooks w ∧ trace w1 = trace w
                  ∧ (∀ l, l ≠ obj → heap w1 l = heap w l)
                  ∧ ∀ key, props (heap w1 obj) !! key =
                      if isFunction v then props (heap w obj) !! key
                      else <[k := v]> (props (heap w obj)) !! key).
    { subst w1. destruct (isFunction v); simpl; [done|].
      repeat split.
      - intros l Hl. by apply fn_lookup_alter_ne.
      - intros key. by rewrite fn_lookup_alter. }
    destruct Hw1 as (Hq1 & Hh1 & Ht1 & Hother1 & Hprops1).
    split; [congruence|]. split; [congruence|]. split; [congruence|].
    split.
    + intros l Hl. rewrite Hother by done. by apply Hother1.
    + intros key. rewrite Hprops, !Hprops1.
      destruct (decide (k = key)) as [->|Hne].
      * rewrite !lookup_insert_eq.
        by rewrite (not_elem_of_list_to_map_1 entries key Hk).
      * rewrite (lookup_insert_ne (list_to_map entries)) by done.
        destruct (list_to_map entries !! key) as [v'|];
          destruct (isFunction v); try done;
          by rewrite lookup_insert_ne.
Qed.

Lemma copyCustomValues_copies obj options (w : World D) :
  ∃ w', copyCustomValues obj options w = (w', Normal tt)
    ∧ _transactionObjects w' = _transactionObjects w
    ∧ _hooks w' = _hooks w
    ∧ trace w' = trace w
    ∧ (∀ l, l ≠ obj → heap w' l = heap w l)
    ∧ ∀ key, props (heap w' obj) !! key =
        match values options !! key with
        | Some v => if isFunction v then props (heap w obj) !! key else Some v
        | None => props (heap w obj) !! key
        end.
Proof.
  unfold copyCustomValues.
  destruct (copy_entries obj (map_to_list (values options)) w
              (NoDup_fst_map_to_list _))
    as (w' & Hrun & Hq & Hh & Ht & Hother & Hprops).
  exists w'. repeat (split; [done|]).
  intros key. by rewrite Hprops, list_to_map_to_list.
Qed.


(** C7 (amended).  Given options whose criteria ([where]) is a non-empty
    string, [insertWithCustomValues] throws a [BadRequestException] and
    leaves the world as it found it: nothing is queued and the entity is not
    touched. *)
Theorem C7_insert_rejects_nonempty_criteria
    (w : World D) (obj : nat) (options : TransactionScopeOptions) (s : string) :
  where_ options = Some s →
  s ≠ "" →
  insertWithCustomValues obj options w =
    (w, Throw (BadRequestException "can't pass criteria when inserting values")).
Proof.
  intros Hwhere Hs. unfold insertWithCustomValues.
  rewrite Hwhere, truthyStr_where. by case_decide.
Qed.

End Properties.

(** ** The claims on concrete scopes *)

Import Samples.

(** C3.  A bulk commit after [addRawQuery("SELECT 1", ["p"])], [delete(e1)]
    and [addCollection([e2, e3])] makes one [save] call and no [remove], but
    the list it saves holds the Delete record itself next to the two
    unwrapped entities, and the raw query is run with [undefined] for its
    text and for its parameters: the staged text is never sent. *)
Theorem C3_bulk_commit_loses_raw_query_text :
  let w := stageAll [CallAddRawQuery "SELECT 1" [VStr "p"];
                     CallDelete 1;
                     CallAddCollection [2; 3]] freshWorld in
  let r := commit okStore changedFields shallowMerge None None true w in
  r.2 = Normal tt
  ∧ issued (trace r.1) =
      [DsStartTransaction;
       DsSave (SaveList [ItemRecord (mkTransactionScopeObject EntityCollection
                                        (PRef 1) (Some Delete) None);
                         ItemEntity 2; ItemEntity 3]) None;
       DsQuery VUndefined VUndefined;
       DsCommitTransaction]
  ∧ DsQuery (VStr "SELECT 1") (VArr [VStr "p"]) ∉ issued (trace r.1).
Proof.
  assert (Hissued :
    issued (trace (commit okStore changedFields shallowMerge None None true
                     (stageAll [CallAddRawQuery "SELECT 1" [VStr "p"];
                                CallDelete 1;
                                CallAddCollection [2; 3]] freshWorld)).1) =
      [DsStartTransaction;
       DsSave (SaveList [ItemRecord (mkTransactionScopeObject EntityCollection
                                        (PRef 1) (Some Delete) None);
                         ItemEntity 2; ItemEntity 3]) None;
       DsQuery VUndefined VUndefined;
       DsCommitTransaction]) by reflexivity.
  intros w r. split; [reflexivity|]. split; [exact Hissued|].
  subst r w. rewrite Hissued. intros Hin.
  repeat (apply elem_of_cons in Hin as [Hin|Hin]; [discriminate|]).
  by apply elem_of_nil in Hin.
Qed.

(** C4.  With the transaction committed: a listener whose promise rejects
    is called, but nothing is logged and [commit] returns normally; a
    listener that throws is logged and its error raised, but the hook
    registered after it is never called.  The registry is empty either
    way. *)
Theorem C4_hook_failures_after_commit :
  let r1 := commit okStore changedFields shallowMerge None None false
              (withHooks [rejectingHook]) in
  let r2 := commit okStore changedFields shallowMerge None None false
              (withHooks [throwingHook; quietHook]) in
  (r1.2 = Normal tt
   ∧ invoked (trace r1.1) = [rejectingHook]
   ∧ logged (trace r1.1) = []
   ∧ _hooks r1.1 = [])
  ∧ (r2.2 = Throw (External "hook threw")
     ∧ invoked (trace r2.1) = [throwingHook]
     ∧ logged (trace r2.1) =
         ["error while executing transaction scope AfterCommit Hooks"]
     ∧ issued (trace r2.1) = [DsStartTransaction; DsCommitTransaction]
     ∧ _hooks r2.1 = []).
Proof. repeat split. Qed.

(** C5.  [updateCollection([e1, e2])], neither entity having a snapshot,
    stages one Update record that holds the array, but tags it
    [EntityCollection], where [addCollection] tags its record
    [BulkEntityCollnection]; a bulk commit then hands [save] the record,
    not the two entities. *)
Theorem C5_updateCollection_tags_array_as_single_entity :
  let staged := mkTransactionScopeObject EntityCollection (PArr [1; 2])
                  (Some Update) None in
  let w := (updateCollection [1; 2] freshWorld).1 in
  existsb (λ col, truthy (getProp (heap freshWorld) col "entitySnapshot")) [1; 2]
    = false
  ∧ _transactionObjects w = [staged]
  ∧ type staged ≠ BulkEntityCollnection
  ∧ type <$> _transactionObjects (addCollection [1; 2] freshWorld).1
      = [BulkEntityCollnection]
  ∧ issued (trace (commit okStore changedFields shallowMerge None None true w).1)
      = [DsStartTransaction;
         DsSave (SaveList [ItemRecord staged]) None;
         DsCommitTransaction].
Proof. repeat split. intros [=]. Qed.

(** C9.  A scope holds a raw query and two hooks, the first of which
    throws.  The datastore refuses the query: [commit] raises, no listener
    is called, and both hooks stay registered.  An entity is then staged and
    the next [commit] succeeds in its transaction (start, save, commit); it
    calls the first hook, which throws, and empties the registry: the second
    hook, retained by the failed commit, is dropped without having been
    called, and this [commit] raises what the first hook threw. *)
Theorem C9_retained_hook_dropped_by_throwing_hook :
  let w := withQueue [rawRecord "SELECT 1" []] [throwingHook; quietHook] in
  let r1 := commit noQueryStore changedFields shallowMerge None None false w in
  let r2 := commit noQueryStore changedFields shallowMerge None None false
              (add 1 r1.1).1 in
  (r1.2 = Throw (External "query failed")
   ∧ issued (trace r1.1) =
       [DsStartTransaction; DsQuery (VStr "SELECT 1") (VArr []);
        DsRollbackTransaction]
   ∧ invoked (trace r1.1) = []
   ∧ _hooks r1.1 = [throwingHook; quietHook])
  ∧ (issued (trace r2.1) =
       issued (trace r1.1)
         ++ [DsStartTransaction; DsSave (SavePayload (PRef 1)) None;
             DsCommitTransaction]
     ∧ r2.2 = Throw (External "hook threw")
     ∧ invoked (trace r2.1) = [throwingHook]
     ∧ (quietHook ∉ invoked (trace r2.1))
     ∧ _hooks r2.1 = []).
Proof.
  assert (Hinvoked :
    invoked (trace (commit noQueryStore changedFields shallowMerge None None false
                      (add 1 (commit noQueryStore changedFields shallowMerge
                                None None false
                                (withQueue [rawRecord "SELECT 1" []]
                                   [throwingHook; quietHook])).1).1).1)
      = [throwingHook]) by reflexivity.
  intros w r1 r2.
  split; [repeat split|].
  split; [reflexivity|]. split; [reflexivity|]. split; [exact Hinvoked|].
  split; [|reflexivity].
  subst r2 r1 w. rewrite Hinvoked. intros Hin.
  apply elem_of_cons in Hin as [Hin|Hin]; [|by apply elem_of_nil in Hin].
  apply (f_equal (λ hook, listener hook ∅)) in Hin. discriminate Hin.
Qed.

(** C1 at work: a raw query is staged, a hook registered, and the
    datastore refuses the query. *)
Lemma C1_witness_failing_query :
  let w := stageAll [CallAddRawQuery "SELECT 1" [];
                     CallRegisterAfterCommit (λ _, Returned) ∅] freshWorld in
  let wb := (ds noQueryStore DsStartTransaction w).1 in
  let w1 := (commitWork noQueryStore changedFields shallowMerge None false wb).1 in
  let r := commit noQueryStore changedFields shallowMerge None None false w in
  ds noQueryStore DsStartTransaction w = (wb, Normal [])
  ∧ commitWork noQueryStore changedFields shallowMerge None false wb
      = (w1, Throw (External "query failed"))
  ∧ _transactionObjects r.1 = []
  ∧ r.2 = Throw (External "query failed")
  ∧ invoked (trace r.1) = invoked (trace w).
Proof.
  intros w wb w1 r.
  destruct (C1_commit_empties_queue_and_reraises
              noQueryStore changedFields shallowMerge
              [CallAddRawQuery "SELECT 1" [];
               CallRegisterAfterCommit (λ _, Returned) ∅]
              freshWorld None None false) as (Hq & _ & Hstep).
  split; [reflexivity|]. split; [reflexivity|]. split; [exact Hq|].
  apply (Hstep wb [] w1 (External "query failed")); reflexivity.
Defined.

(** C8 at work: the second record asks to update a plain object. *)
Lemma C8_witness_plain_object :
  let before := [rawRecord "SELECT 1" []] in
  let t := mkTransactionScopeObject EntityCollection (PRef 4) (Some Update) None in
  let after := [mkTransactionScopeObject EntityCollection (PRef 1) (Some Delete) None] in
  let w := withQueue (before ++ t :: after) [] in
  let wb := (ds okStore DsStartTransaction w).1 in
  let w1 := (forEachM (replayTransaction okStore changedFields shallowMerge None)
               before wb).1 in
  let r := commit okStore changedFields shallowMerge None None false w in
  instanceofEntityBase (heap w1) (object t) = false
  ∧ isArray (object t) = false
  ∧ r.2 = Throw (JsError "Entity is not an instance of entity base")
  ∧ trace r.1
      = trace w1 ++ [EvConsoleError "ENTITY NOT AN INSTANCE OF ENTITY BASE";
                     EvDs DsRollbackTransaction]
  ∧ _transactionObjects r.1 = [].
Proof.
  intros before t after w wb w1 r.
  split; [reflexivity|]. split; [reflexivity|].
  apply (C8_update_of_unrecognised_target_aborts
           okStore changedFields shallowMerge None None w before t after wb [] w1);
    try reflexivity; discriminate.
Defined.



(** Counterexample to C7: options whose criteria is set to the empty
    string are accepted, and the change is queued. *)
Lemma C7_counterexample_empty_criteria_accepted :
  let options := mkOptions (Some "") ∅ in
  let r := insertWithCustomValues 1 options freshWorld in
  where_ options = Some ""
  ∧ r.2 = Normal tt
  ∧ (∀ e, r.2 ≠ Throw e)
  ∧ _transactionObjects r.1 =
      [mkTransactionScopeObject EntityCollection (PRef 1) (Some Insert) (Some options)].
Proof. repeat split. intros e [=]. Qed.

(** C7 at work: [insertWithCustomValues(e, {where: "x"})]. *)
Lemma C7_witness_criteria_x :
  let options := mkOptions (Some "x") ∅ in
  where_ options = Some "x"
  ∧ "x" ≠ ""
  ∧ insertWithCustomValues 1 options freshWorld =
      (freshWorld,
       Throw (BadRequestException "can't pass criteria when inserting values")).
Proof.
  intros options. split; [reflexivity|]. split; [discriminate|].
  apply (C7_insert_rejects_nonempty_criteria freshWorld 1 options "x");
    [reflexivity | discriminate].
Defined.

(** ** Further properties of the class *)

Section MoreProperties.

Context {D : Type}.
Context (ds_exec : DsCall → Heap → D → DsOutcome D).
Context (getPropertiesToUpdate : JsObject → FieldMap).
Context (mergeDeep : JsObject → option FieldMap → JsObject).

Local Abbreviation ds := (ds ds_exec).
Local Abbreviation transaction := (transaction ds_exec).
Local Abbreviation replayTransaction := (replayTransaction ds_exec getPropertiesToUpdate mergeDeep).
Local Abbreviation replayUpdate := (replayUpdate ds_exec getPropertiesToUpdate).
Local Abbreviation replayInsert := (replayInsert ds_exec mergeDeep).
Local Abbreviation commitWork := (commitWork ds_exec getPropertiesToUpdate mergeDeep).
Local Abbreviation commitTransaction := (commitTransaction ds_exec getPropertiesToUpdate mergeDeep).
Local Abbreviation commit := (commit ds_exec getPropertiesToUpdate mergeDeep).

(** *** Staging *)

Lemma unchanged_push {X} (f : World D → X) t :
  (∀ q w, f (set_transactionObjects q w) = f w) → unchanged f (push t).
Proof. intros H. apply unchanged_modify. intros w. apply H. Qed.

Lemma unchanged_copyCustomValues {X} (f : World D → X) obj options :
  (∀ h w, f (set_heap h w) = f w) → unchanged f (copyCustomValues obj options).
Proof.
  intros H. apply unchanged_forEachM. intros [k v]. simpl.
  destruct (isFunction v); [apply unchanged_ret|].
  apply unchanged_modify. intros w. apply H.
Qed.

(** A staging call reaches neither the datastore nor the console, nor any
    listener. *)
Lemma unchanged_stage {X} (f : World D → X) c :
  (∀ q w, f (set_transactionObjects q w) = f w) →
  (∀ h w, f (set_heap h w) = f w) →
  (∀ hs w, f (set_hooks hs w) = f w) →
  unchanged f (stage c).
Proof.
  intros Hq Hh Hs.
  destruct c as [q ps|obj|collection|obj|collection|obj|obj|collection|collection|obj opts|obj opts|lsn dat|];
    simpl; try (by apply unchanged_push).
  - unfold updateCollection.
    apply unchanged_bind; [apply unchanged_gets|]. intros h.
    case_match; [|by apply unchanged_push].
    apply unchanged_forEachM. intros obj. by apply unchanged_push.
  - unfold insertWithCustomValues. case_match; [apply unchanged_throw|].
    apply unchanged_bind; [by apply unchanged_copyCustomValues|].
    intros _. by apply unchanged_push.
  - unfold updateWithCustomValues.
    apply unchanged_bind; [by apply unchanged_copyCustomValues|].
    intros _. by apply unchanged_push.
  - apply unchanged_modify. intros w. apply Hs.
  - apply unchanged_modify. intros w. apply Hs.
Qed.

Lemma unchanged_stageAll {X} (f : World D → X) calls (w : World D) :
  (∀ q w, f (set_transactionObjects q w) = f w) →
  (∀ h w, f (set_heap h w) = f w) →
  (∀ hs w, f (set_hooks hs w) = f w) →
  f (stageAll calls w) = f w.
Proof.
  intros Hq Hh Hs. revert w.
  induction calls as [|c calls IH]; intros w; [done|].
  unfold stageAll. simpl. fold (stageAll calls (stage c w).1).
  rewrite IH. by apply unchanged_stage.
Qed.

Lemma stage_queue c (w : World D) :
  ∃ recs, _transactionObjects (stage c w).1 = _transactionObjects w ++ recs
          ∧ Forall (λ t, stagedShape t = true) recs.
Proof.
  assert (Hone : ∀ t, stagedShape t = true →
            ∃ recs, _transactionObjects (push t w).1 = _transactionObjects w ++ recs
                    ∧ Forall (λ t, stagedShape t = true) recs).
  { intros t Ht. exists [t]. split; [done|]. by constructor. }
  assert (Hnone : ∃ recs, _transactionObjects w = _transactionObjects w ++ recs
                          ∧ Forall (λ t, stagedShape t = true) recs).
  { exists []. by rewrite app_nil_r. }
  destruct c as [q ps|obj|collection|obj|collection|obj|obj|collection|collection|obj opts|obj opts|lsn dat|];
    simpl; try (by apply Hone); try exact Hnone.
  - rewrite updateCollection_stages. simpl. eexists. split; [reflexivity|].
    case_match.
    + apply Forall_fmap. by apply Forall_true.
    + by constructor.
  - unfold insertWithCustomValues. case_match; [exact Hnone|].
    destruct (copyCustomValues_copies obj opts w) as (w1 & Hrun & Hq & _).
    erewrite bind_normal by exact Hrun. simpl. rewrite Hq.
    exists [mkTransactionScopeObject EntityCollection (PRef obj)
              (Some Insert) (Some opts)].
    split; [done|]. by constructor.
  - unfold updateWithCustomValues.
    destruct (copyCustomValues_copies obj opts w) as (w1 & Hrun & Hq & _).
    erewrite bind_normal by exact Hrun. simpl. rewrite Hq.
    exists [mkTransactionScopeObject EntityCollection (PRef obj)
              (Some Update) (Some opts)].
    split; [done|]. by constructor.
Qed.

Lemma stage_heap c (w : World D) l :
  l ∉ customTargets [c] → heap (stage c w).1 l = heap w l.
Proof.
  intros Hl.
  assert (Hcopy : ∀ obj opts t, l ≠ obj →
            heap ((copyCustomValues obj opts >> push t) w).1 l = heap w l).
  { intros obj opts t Hne.
    destruct (copyCustomValues_copies obj opts w)
      as (w1 & Hrun & _ & _ & _ & Hother & _).
    erewrite bind_normal by exact Hrun. simpl. by apply Hother. }
  destruct c as [q ps|obj|collection|obj|collection|obj|obj|collection|collection|obj opts|obj opts|lsn dat|];
    simpl in *; try reflexivity.
  - by rewrite updateCollection_stages.
  - unfold insertWithCustomValues. case_match; [done|].
    apply Hcopy. set_solver.
  - apply Hcopy. set_solver.
Qed.

(** X1.  Staging never drops or reorders what is already pending: after
    any sequence of staging calls the queue is the old queue followed by new
    records, each of a shape that the staging methods build. *)
Theorem X1_staging_only_appends (calls : list StagingCall) (w : World D) :
  ∃ recs, _transactionObjects (stageAll calls w) = _transactionObjects w ++ recs
          ∧ Forall (λ t, stagedShape t = true) recs.
Proof.
  revert w. induction calls as [|c calls IH]; intros w.
  - exists []. by rewrite app_nil_r.
  - unfold stageAll. simpl. fold (stageAll calls (stage c w).1).
    destruct (stage_queue c w) as (recs1 & Hq1 & Hs1).
    destruct (IH (stage c w).1) as (recs2 & Hq2 & Hs2).
    exists (recs1 ++ recs2). rewrite Hq2, Hq1, app_assoc. split; [done|].
    by apply Forall_app.
Qed.

(** X2.  Staging is silent and local: a sequence of staging calls makes no
    datastore call, writes nothing to the console, calls no listener and
    leaves the datastore state alone; the only entities it writes to are the
    targets of its custom-values calls. *)
Theorem X2_staging_is_silent (calls : list StagingCall) (w : World D) :
  trace (stageAll calls w) = trace w
  ∧ db (stageAll calls w) = db w
  ∧ ∀ l, l ∉ customTargets calls → heap (stageAll calls w) l = heap w l.
Proof.
  split; [by apply unchanged_stageAll|]. split; [by apply unchanged_stageAll|].
  revert w. induction calls as [|c calls IH]; intros w l Hl; [done|].
  unfold stageAll. simpl. fold (stageAll calls (stage c w).1).
  assert (Hsplit : customTargets (c :: calls)
                   = customTargets [c] ++ customTargets calls).
  { unfold customTargets. by rewrite <- omap_app. }
  rewrite Hsplit in Hl. apply not_elem_of_app in Hl as [Hl1 Hl2].
  rewrite IH by done. by apply stage_heap.
Qed.

(** *** The partition of the bulk path *)

Lemma extract_thrown e q : foldl extractStep (Throw e) q = Throw e.
Proof. induction q as [|t q IH]; [done | exact IH]. Qed.

Lemma extract_from entityCollection rawQueryCollection q :
  Forall (λ t, type t = BulkEntityCollnection → isArray (object t) = true) q →
  foldl extractStep (Normal (entityCollection, rawQueryCollection)) q =
    Normal (entityCollection ++ (q ≫= bulkItems),
            rawQueryCollection ++ filter (λ t, isRawQuery t = true) q).
Proof.
  revert entityCollection rawQueryCollection.
  induction q as [|t q IH]; intros ents raws Hq.
  - simpl. by rewrite !app_nil_r.
  - apply Forall_cons in Hq as [Ht Hq].
    assert (Hstep : extractStep (Normal (ents, raws)) t =
              Normal (ents ++ bulkItems t,
                      raws ++ if isRawQuery t then [t] else [])).
    { unfold extractStep, bulkItems, isRawQuery.
      destruct (type t); simpl; rewrite ?app_nil_r; try done.
      specialize (Ht eq_refl). by destruct (object t). }
    cbn [foldl]. rewrite Hstep, IH by done. rewrite bind_cons, <- !app_assoc.
    rewrite filter_cons.
    destruct (isRawQuery t); by case_decide.
Qed.

Lemma stagedShape_spreadable q :
  Forall (λ t, stagedShape t = true) q →
  Forall (λ t, type t = BulkEntityCollnection → isArray (object t) = true) q.
Proof.
  intros Hq. eapply Forall_impl; [exact Hq|].
  intros t Ht Hty. unfold stagedShape in Ht.
  rewrite Hty in Ht. by destruct (object t).
Qed.

Lemma extract_staged (q : list TransactionScopeObject) :
  Forall (λ t, stagedShape t = true) q →
  extractCollectionsFromTransactions q =
    Normal (q ≫= bulkItems, filter (λ t, isRawQuery t = true) q).
Proof.
  intros Hq. unfold extractCollectionsFromTransactions.
  by rewrite extract_from by by apply stagedShape_spreadable.
Qed.

(** X3.  On a queue of staged records, [extractCollectionsFromTransactions]
    does not throw and keeps the order of submission on both sides: the
    raw-query list is the sub-list of the raw-query records, and the entity
    list is made, record after record, of the record itself when it is
    tagged [EntityCollection] and of the elements of its array when it is
    tagged [BulkEntityCollnection]. *)
Theorem X3_extract_partitions_in_order (q : list TransactionScopeObject) :
  Forall (λ t, stagedShape t = true) q →
  extractCollectionsFromTransactions q =
    Normal (q ≫= bulkItems, filter (λ t, isRawQuery t = true) q).
Proof. apply extract_staged. Qed.

(** X4.  A record tagged [BulkEntityCollnection] whose payload is not an
    array makes [extractCollectionsFromTransactions] throw a TypeError,
    wherever it stands in the queue. *)
Theorem X4_extract_rejects_batch_without_array
    (before after : list TransactionScopeObject) (t : TransactionScopeObject) :
  type t = BulkEntityCollnection →
  isArray (object t) = false →
  ∃ message,
    extractCollectionsFromTransactions (before ++ t :: after)
      = Throw (TypeError message).
Proof.
  intros Hty Harr. exists "object is not iterable".
  unfold extractCollectionsFromTransactions.
  rewrite foldl_app. simpl.
  assert (Hstep : ∀ acc, ∃ e, extractStep acc t = Throw e
            ∧ (e = TypeError "object is not iterable"
               ∨ acc = Throw e)).
  { intros [[ents raws]|e]; simpl.
    - rewrite Hty. destruct (object t); try discriminate; eauto.
    - eauto. }
  assert (Hacc : ∀ q acc,
            (∀ e, acc = Throw e → e = TypeError "object is not iterable") →
            ∀ e, foldl extractStep acc q = Throw e →
                 e = TypeError "object is not iterable").
  { induction q as [|t' q IH]; intros acc Hacc e He; [by apply Hacc|].
    simpl in He. apply (IH (extractStep acc t')); [|done].
    intros e' He'. destruct acc as [[ents raws]|e0]; simpl in He'.
    - destruct (type t'); try discriminate.
      destruct (object t'); simpl in He'; congruence.
    - apply Hacc. congruence. }
  destruct (Hstep (foldl extractStep (Normal ([], [])) before)) as (e & He & Hor).
  rewrite He, extract_thrown. f_equal.
  destruct Hor as [->|Hbefore]; [done|].
  by apply (Hacc before (Normal ([], [])) ltac:(discriminate)).
Qed.

(** *** The calls of the bulk path *)

Lemma issued_emit_ds c (w : World D) :
  issued (trace (emit (EvDs c) w)) = issued (trace w) ++ [c].
Proof. unfold issued. simpl. by rewrite omap_app. Qed.

Lemma issued_ds c (w : World D) :
  issued (trace (ds c w).1) = issued (trace w) ++ [c].
Proof.
  rewrite trace_ds. unfold issued. by rewrite omap_app.
Qed.

Lemma bulk_queries (so : option SaveOptions)
    (raws : list TransactionScopeObject) (w : World D) :
  ∃ rest,
    issued (trace (forEachM
                     (λ rawquery,
                        ds (DsQuery (recordProp rawquery "query")
                                    (recordProp rawquery "parameters")) >>
                        ret tt) raws w).1)
      = issued (trace w) ++ rest
    ∧ Forall (λ c, isQueryCall c = true) rest
    ∧ (length rest ≤ length raws)%nat
    ∧ ((forEachM
          (λ rawquery,
             ds (DsQuery (recordProp rawquery "query")
                         (recordProp rawquery "parameters")) >>
             ret tt) raws w).2 = Normal tt → length rest = length raws).
Proof.
  revert w. induction raws as [|t raws IH]; intros w; simpl.
  - exists []. rewrite app_nil_r. repeat split; done.
  - pose proof (issued_ds (DsQuery (recordProp t "query")
                                   (recordProp t "parameters")) w) as Hcall.
    unfold bind in *.
    destruct (ds (DsQuery (recordProp t "query") (recordProp t "parameters")) w)
      as [w1 [maps|e]]; simpl in *.
    + destruct (IH w1) as (rest & Hrest & Hall & Hlen & Hok).
      exists (DsQuery (recordProp t "query") (recordProp t "parameters") :: rest).
      rewrite Hrest, Hcall, <- app_assoc. split; [done|].
      split; [by constructor|]. split; [simpl; lia|].
      intros Hn. simpl. f_equal. by apply Hok.
    + exists [DsQuery (recordProp t "query") (recordProp t "parameters")].
      split; [done|]. split; [by repeat constructor|].
      split; [simpl; lia | discriminate].
Qed.

(** X5.  In bulk mode, on a queue of staged records, the callback of
    [commit] makes one [save] call first, for the whole entity list of the
    partition and with the save options, and after it nothing but [query]
    calls, at most one per raw-query record and exactly one per raw-query
    record when it returns normally.  It never calls [softRemove], [remove],
    [update] or [insert], whatever the states of the records. *)
Theorem X5_bulk_commit_saves_once_then_queries
    (so : option SaveOptions) (w : World D) :
  Forall (λ t, stagedShape t = true) (_transactionObjects w) →
  ∃ rest,
    issued (trace (commitWork so true w).1)
      = issued (trace w)
          ++ DsSave (SaveList (_transactionObjects w ≫= bulkItems)) so :: rest
    ∧ Forall (λ c, isQueryCall c = true) rest
    ∧ (length rest
       ≤ length (filter (λ t, isRawQuery t = true) (_transactionObjects w)))%nat
    ∧ ((commitWork so true w).2 = Normal tt →
       length rest = length (filter (λ t, isRawQuery t = true) (_transactionObjects w))).
Proof.
  intros Hq.
  set (ents := _transactionObjects w ≫= bulkItems).
  set (raws := filter (λ t, isRawQuery t = true) (_transactionObjects w)).
  assert (Heq : commitWork so true w =
            match ds (DsSave (SaveList ents) so) w with
            | (w1, Normal _) =>
                if (0 <? length raws)%nat then
                  forEachM
                    (λ rawquery,
                       ds (DsQuery (recordProp rawquery "query")
                                   (recordProp rawquery "parameters")) >>
                       ret tt) raws w1
                else (w1, Normal tt)
            | (w1, Throw e) => (w1, Throw e)
            end).
  { unfold TransactionScope.commitWork, bind at 1 2 3, gets, liftCompletion.
    rewrite (extract_staged _ Hq). simpl. fold ents raws.
    destruct (ds (DsSave (SaveList ents) so) w) as [w1 [maps|e]]; [|done].
    by destruct (0 <? length raws)%nat. }
  rewrite Heq. clear Heq.
  pose proof (issued_ds (DsSave (SaveList ents) so) w) as Hsave.
  destruct (ds (DsSave (SaveList ents) so) w) as [w1 [maps|e]]; simpl in *.
  - destruct (0 <? length raws)%nat eqn:Hlen.
    + destruct (bulk_queries so raws w1) as (rest & Hrest & Hall & Hle & Hok).
      exists rest. rewrite Hrest, Hsave, <- app_assoc. done.
    + apply Nat.ltb_ge in Hlen. exists []. simpl.
      rewrite Hsave. split; [done|]. split; [done|]. split; lia.
  - exists []. rewrite Hsave. split; [done|]. split; [done|].
    split; [simpl; lia | discriminate].
Qed.

(** X6.  With nothing staged, the non-bulk callback does nothing at all,
    while the bulk callback still calls [save], with an empty list. *)
Theorem X6_commit_of_empty_queue (so : option SaveOptions) (w : World D) :
  _transactionObjects w = [] →
  commitWork so false w = (w, Normal tt)
  ∧ commitWork so true w = (ds (DsSave (SaveList []) so) >> ret tt) w.
Proof.
  intros Hq. split.
  - unfold TransactionScope.commitWork, bind, gets. by rewrite Hq.
  - unfold TransactionScope.commitWork, bind, gets, liftCompletion.
    rewrite Hq. simpl.
    by destruct (ds (DsSave (SaveList []) so) w) as [w1 [maps|e]].
Qed.

(** *** One record of the non-bulk replay *)

Lemma trace_mergeInto p r (w : World D) :
  trace (mergeInto mergeDeep p r w).1 = trace w.
Proof. by destruct p. Qed.

Lemma constructorName_throws (h : Heap) (p : Payload) e :
  constructorName h p = Throw e → ∃ message, e = TypeError message.
Proof.
  destruct p as [q|l|ls]; simpl; try discriminate.
  destruct (props (h l) !! "constructor") as [v|]; [|discriminate].
  destruct v; simpl; intros [= <-]; eauto.
Qed.

Lemma replayInsert_trace so t (w : World D) :
  (∃ c, trace (replayInsert so t w).1 = trace w ++ [EvDs c]
        ∧ removesWith so (EvDs c))
  ∨ (∃ message,
       constructorName (heap w) (object t) = Throw (TypeError message)
       ∧ replayInsert so t w = (w, Throw (TypeError message))).
Proof.
  destruct (options t) as [opts|] eqn:Ho.
  - destruct (constructorName (heap w) (object t)) as [cls|e] eqn:Hcls.
    + left. exists (DsInsert cls (values opts)). split; [|done].
      assert (Hrun : replayInsert so t w =
                (let* generatedMaps := ds (DsInsert cls (values opts)) in
                 mergeInto mergeDeep (object t) (head generatedMaps)) w).
      { unfold TransactionScope.replayInsert. rewrite Ho.
        unfold bind at 1, gets. unfold bind at 1, liftCompletion.
        by rewrite Hcls. }
      rewrite Hrun. unfold bind.
      pose proof (trace_ds ds_exec (DsInsert cls (values opts)) w) as H.
      destruct (ds (DsInsert cls (values opts)) w) as [w1 [maps|e]];
        simpl in *; [|done].
      by rewrite trace_mergeInto.
    + right. destruct (constructorName_throws _ _ _ Hcls) as (message & ->).
      exists message. split; [done|].
      unfold TransactionScope.replayInsert. rewrite Ho.
      unfold bind at 1, gets. unfold bind at 1, liftCompletion.
      by rewrite Hcls.
  - left. exists (DsSave (SavePayload (object t)) so). split; [|done].
    unfold TransactionScope.replayInsert. rewrite Ho.
    apply (trace_call ds_exec).
Qed.

Lemma replayUpdate_cases so t (w : World D) :
  (∃ c, replayUpdate so t w = (ds c >> ret tt) w ∧ removesWith so (EvDs c))
  ∨ (instanceofEntityBase (heap w) (object t) = false
     ∧ isArray (object t) = false
     ∧ replayUpdate so t w =
         (emit (EvConsoleError "ENTITY NOT AN INSTANCE OF ENTITY BASE") w,
          Throw (JsError "Entity is not an instance of entity base")))
  ∨ (∃ message,
       constructorName (heap w) (object t) = Throw (TypeError message)
       ∧ replayUpdate so t w = (w, Throw (TypeError message))).
Proof.
  destruct (instanceofEntityBase (heap w) (object t)) eqn:Hi.
  - destruct (constructorName (heap w) (object t)) as [cls|e] eqn:Hc.
    + left.
      destruct (truthy (payloadProp (heap w) (object t) "entitySnapshot")) eqn:Hs;
        [|destruct (options t) as [opts|] eqn:Ho].
      * eexists. split; [|shelve].
        unfold TransactionScope.replayUpdate, bind at 1, gets.
        rewrite Hi, Hs. unfold bind at 1, liftCompletion. rewrite Hc.
        reflexivity.
      * eexists. split; [|shelve].
        unfold TransactionScope.replayUpdate, bind at 1, gets.
        rewrite Hi, Hs, Ho. unfold bind at 1, liftCompletion. rewrite Hc.
        reflexivity.
      * eexists. split; [|shelve].
        unfold TransactionScope.replayUpdate, bind at 1, gets.
        rewrite Hi, Hs, Ho. reflexivity.
    + destruct (constructorName_throws _ _ _ Hc) as (message & ->).
      destruct (truthy (payloadProp (heap w) (object t) "entitySnapshot")) eqn:Hs;
        [|destruct (options t) as [opts|] eqn:Ho].
      * right. right. exists message. split; [done|].
        unfold TransactionScope.replayUpdate, bind at 1, gets.
        rewrite Hi, Hs. unfold bind at 1, liftCompletion. by rewrite Hc.
      * right. right. exists message. split; [done|].
        unfold TransactionScope.replayUpdate, bind at 1, gets.
        rewrite Hi, Hs, Ho. unfold bind at 1, liftCompletion. by rewrite Hc.
      * left. eexists. split; [|shelve].
        unfold TransactionScope.replayUpdate, bind at 1, gets.
        rewrite Hi, Hs, Ho. reflexivity.
  - destruct (isArray (object t)) eqn:Ha.
    + left. eexists. split; [|shelve].
      unfold TransactionScope.replayUpdate, bind at 1, gets.
      rewrite Hi, Ha. reflexivity.
    + right. left. split; [done|]. split; [done|].
      unfold TransactionScope.replayUpdate, bind at 1, gets.
      by rewrite Hi, Ha.
  Unshelve. all: done.
Qed.

(** The loop body, case by case: one call (with the save options if it
    is a [softRemove] or a [remove]), or one of the two errors that the
    scope raises by itself. *)
Lemma replayTransaction_cases so (t : TransactionScopeObject) (w : World D) :
  stagedShape t = true →
  (∃ c, trace (replayTransaction so t w).1 = trace w ++ [EvDs c]
        ∧ removesWith so (EvDs c))
  ∨ (objectState t = Some Update
     ∧ instanceofEntityBase (heap w) (object t) = false
     ∧ isArray (object t) = false
     ∧ replayTransaction so t w =
         (emit (EvConsoleError "ENTITY NOT AN INSTANCE OF ENTITY BASE") w,
          Throw (JsError "Entity is not an instance of entity base")))
  ∨ (∃ message,
       constructorName (heap w) (object t) = Throw (TypeError message)
       ∧ replayTransaction so t w = (w, Throw (TypeError message))).
Proof.
  intros Hshape. unfold stagedShape in Hshape.
  assert (Hcall : ∀ c, removesWith so (EvDs c) →
            ∃ c', trace ((ds c >> ret tt) w).1 = trace w ++ [EvDs c']
                  ∧ removesWith so (EvDs c')).
  { intros c Hc. exists c. split; [apply (trace_call ds_exec) | done]. }
  assert (Hentity : objectState t ≠ None →
    (∃ c, trace (match objectState t with
                 | Some Delete => ds (DsSoftRemove (object t) so) >> ret tt
                 | Some HardDelete => ds (DsRemove (object t) so) >> ret tt
                 | Some Update => replayUpdate so t
                 | Some Insert => replayInsert so t
                 | None => ret tt
                 end w).1 = trace w ++ [EvDs c] ∧ removesWith so (EvDs c))
    ∨ (objectState t = Some Update
       ∧ instanceofEntityBase (heap w) (object t) = false
       ∧ isArray (object t) = false
       ∧ match objectState t with
         | Some Delete => ds (DsSoftRemove (object t) so) >> ret tt
         | Some HardDelete => ds (DsRemove (object t) so) >> ret tt
         | Some Update => replayUpdate so t
         | Some Insert => replayInsert so t
         | None => ret tt
         end w =
           (emit (EvConsoleError "ENTITY NOT AN INSTANCE OF ENTITY BASE") w,
            Throw (JsError "Entity is not an instance of entity base")))
    ∨ (∃ message,
         constructorName (heap w) (object t) = Throw (TypeError message)
         ∧ match objectState t with
           | Some Delete => ds (DsSoftRemove (object t) so) >> ret tt
           | Some HardDelete => ds (DsRemove (object t) so) >> ret tt
           | Some Update => replayUpdate so t
           | Some Insert => replayInsert so t
           | None => ret tt
           end w = (w, Throw (TypeError message)))).
  { intros Hsome. destruct (objectState t) as [[]|]; [| | | |done].
    - destruct (replayInsert_trace so t w) as [Hc|Hth]; [by left|].
      right. by right.
    - destruct (replayUpdate_cases so t w) as [(c & Hrun & Hc)|[Hinv|Hth]].
      + left. rewrite Hrun. by apply Hcall.
      + right. left. by destruct Hinv as (? & ? & ?).
      + right. by right.
    - left. by apply Hcall.
    - left. by apply Hcall. }
  unfold TransactionScope.replayTransaction.
  destruct (type t).
  - left. unfold bind at 1, gets. by apply Hcall.
  - apply Hentity. intros Hnone. rewrite Hnone in Hshape.
    by destruct (object t).
  - apply Hentity. intros Hnone. rewrite Hnone in Hshape.
    by destruct (object t).
Qed.

(** X7.  In the non-bulk replay a staged record costs exactly one datastore
    call, and nothing is written to the console.  There are two exceptions,
    neither of which makes a call: an Update whose target is neither an
    instance of [EntityBase] nor an array writes the console message and
    throws; and a field update or insert whose entity has an own
    [constructor] that is [null] or [undefined] throws the TypeError of
    reading its [name], leaving the world as it is. *)
Theorem X7_one_record_one_call so (t : TransactionScopeObject) (w : World D) :
  stagedShape t = true →
  (∃ c, trace (replayTransaction so t w).1 = trace w ++ [EvDs c])
  ∨ (objectState t = Some Update
     ∧ instanceofEntityBase (heap w) (object t) = false
     ∧ isArray (object t) = false
     ∧ replayTransaction so t w =
         (emit (EvConsoleError "ENTITY NOT AN INSTANCE OF ENTITY BASE") w,
          Throw (JsError "Entity is not an instance of entity base")))
  ∨ (∃ message,
       constructorName (heap w) (object t) = Throw (TypeError message)
       ∧ replayTransaction so t w = (w, Throw (TypeError message))).
Proof.
  intros Hshape.
  destruct (replayTransaction_cases so t w Hshape) as [(c & Hc & _)|[H|H]];
    [left; by exists c | right; by left | right; by right].
Qed.

(** X8.  Replaying an Insert record that carries options makes one
    [insert] call, for the class that [entity.constructor.name] names (an
    own [constructor] property of the entity included) and with
    [options.values]; the save options are not used.  When the call succeeds,
    the entity the caller holds becomes what [mergeDeep] makes of it and of
    the first generated map (of [undefined] when none was generated), and
    every other entity is as the datastore left it; when the call raises,
    the replay raises the same error. *)
Theorem X8_insert_with_options_merges_generated_fields
    so (t : TransactionScopeObject) (w : World D) opts l cls :
  type t ≠ RawQuery →
  objectState t = Some Insert →
  options t = Some opts →
  object t = PRef l →
  constructorName (heap w) (PRef l) = Normal cls →
  trace (replayTransaction so t w).1
    = trace w ++ [EvDs (DsInsert cls (values opts))]
  ∧ match ds_exec (DsInsert cls (values opts)) (heap w) (db w) with
    | DsDone h d generatedMaps =>
        (replayTransaction so t w).2 = Normal tt
        ∧ heap (replayTransaction so t w).1 l = mergeDeep (h l) (head generatedMaps)
        ∧ (∀ l', l' ≠ l → heap (replayTransaction so t w).1 l' = h l')
        ∧ db (replayTransaction so t w).1 = d
    | DsRaised e =>
        (replayTransaction so t w).2 = Throw e
        ∧ heap (replayTransaction so t w).1 = heap w
    end.
Proof.
  intros Hty Hst Hopts Hobj Hcls.
  assert (Hrun : replayTransaction so t w =
            (let* generatedMaps := ds (DsInsert cls (values opts)) in
             mergeInto mergeDeep (PRef l) (head generatedMaps)) w).
  { unfold TransactionScope.replayTransaction. rewrite Hst.
    assert (Hins : replayInsert so t w =
              (let* generatedMaps := ds (DsInsert cls (values opts)) in
               mergeInto mergeDeep (PRef l) (head generatedMaps)) w).
    { unfold TransactionScope.replayInsert. rewrite Hopts, Hobj.
      unfold bind at 1, gets. unfold bind at 1, liftCompletion.
      by rewrite Hcls. }
    by destruct (type t). }
  rewrite Hrun. unfold bind, TransactionScope.ds. simpl.
  destruct (ds_exec (DsInsert cls (values opts)) (heap w) (db w))
    as [h d maps|e]; simpl; [|done].
  split; [done|]. split; [done|]. split; [by rewrite fn_lookup_alter|].
  split; [|done]. intros l' Hne. by rewrite fn_lookup_alter_ne.
Qed.

(** X9.  From staging to the datastore, one method at a time: on a scope
    with nothing else pending, the non-bulk replay of what [addRawQuery],
    [add], [addCollection], [delete], [hardDelete], [deleteCollection],
    [hardDeleteCollection] have staged, and of what [updateCollection] has
    staged when no element has a snapshot, is one call: the query with its
    text and parameters, [save], [softRemove] or [remove] on the entity or
    on the whole array, with the save options. *)
Theorem X9_staged_method_to_datastore_call
    so (w : World D) (text : string) (ps : list Value)
    (obj : nat) (collection : list nat) :
  _transactionObjects w = [] →
  let calls (m : M D unit) := issued (trace (commitWork so false (m w).1).1) in
  calls (addRawQuery text ps) = issued (trace w) ++ [DsQuery (VStr text) (VArr ps)]
  ∧ calls (add obj) = issued (trace w) ++ [DsSave (SavePayload (PRef obj)) so]
  ∧ calls (addCollection collection)
      = issued (trace w) ++ [DsSave (SavePayload (PArr collection)) so]
  ∧ calls (delete obj) = issued (trace w) ++ [DsSoftRemove (PRef obj) so]
  ∧ calls (hardDelete obj) = issued (trace w) ++ [DsRemove (PRef obj) so]
  ∧ calls (deleteCollection collection)
      = issued (trace w) ++ [DsSoftRemove (PArr collection) so]
  ∧ calls (hardDeleteCollection collection)
      = issued (trace w) ++ [DsRemove (PArr collection) so]
  ∧ (existsb (λ col, truthy (getProp (heap w) col "entitySnapshot")) collection
       = false →
     calls (updateCollection collection)
       = issued (trace w) ++ [DsSave (SavePayload (PArr collection)) so]).
Proof.
  intros Hq calls.
  assert (Hone : ∀ t c,
            replayTransaction so t (push t w).1 = (ds c >> ret tt) (push t w).1 →
            issued (trace (commitWork so false (push t w).1).1)
              = issued (trace w) ++ [c]).
  { intros t c Hrun.
    rewrite (commitWork_replays ds_exec getPropertiesToUpdate mergeDeep).
    change (_transactionObjects (push t w).1) with (_transactionObjects w ++ [t]).
    rewrite Hq. cbn [app forEachM]. unfold bind at 1. rewrite Hrun.
    pose proof (issued_ds c (push t w).1) as Hcall.
    unfold bind. by destruct (ds c (push t w).1) as [w1 [maps|e]]. }
  subst calls. simpl.
  repeat split; try (apply Hone; reflexivity).
  intros Hsnap. rewrite updateCollection_stages, Hsnap. simpl.
  apply (Hone (mkTransactionScopeObject EntityCollection (PArr collection)
                 (Some Update) None)).
  reflexivity.
Qed.

(** X10.  A step of the non-bulk replay that raises, for whatever reason,
    ends the commit there: the records after it are not replayed, the
    transaction is rolled back, the queue is emptied, no listener is called,
    and [commit] raises the error of the step. *)
Theorem X10_failing_step_ends_commit
    so ro (w : World D) before t after wb ms w1 w2 e :
  _transactionObjects w = before ++ t :: after →
  ds DsStartTransaction w = (wb, Normal ms) →
  forEachM (replayTransaction so) before wb = (w1, Normal tt) →
  replayTransaction so t w1 = (w2, Throw e) →
  commit so ro false w
    = (set_transactionObjects [] (ds DsRollbackTransaction w2).1, Throw e)
  ∧ trace (commit so ro false w).1 = trace w2 ++ [EvDs DsRollbackTransaction].
Proof.
  intros Hq Hstart Hbefore Hstep.
  assert (Hwork : commitWork so false wb = (w2, Throw e)).
  { rewrite (commitWork_replays ds_exec getPropertiesToUpdate mergeDeep).
    pose proof (queue_ds ds_exec DsStartTransaction w) as Hqb.
    rewrite Hstart in Hqb. simpl in Hqb. rewrite Hqb, Hq, forEachM_app.
    erewrite bind_normal by exact Hbefore. simpl.
    by erewrite bind_throw by exact Hstep. }
  pose proof (transaction_work_throws ds_exec _ _ _ _ _ _ Hstart Hwork) as Htx.
  pose proof (commitTransaction_of_throw ds_exec getPropertiesToUpdate mergeDeep _ _ _ _ _ Htx) as Hct.
  rewrite (commit_of_throw ds_exec getPropertiesToUpdate mergeDeep _ ro _ _ _ _ Hct). split; [done|].
  simpl. apply (trace_ds ds_exec).
Qed.

(** *** The order of the events of [commit] *)

Section Appends.

Context (Q : Event → Prop).

Lemma appendsOnly_same {A} (m : M D A) :
  (∀ w, trace (m w).1 = trace w) → appendsOnly Q m.
Proof. intros H w. exists []. by rewrite app_nil_r. Qed.

Lemma appendsOnly_bind {A B} (m : M D A) (k : A → M D B) :
  appendsOnly Q m → (∀ a, appendsOnly Q (k a)) → appendsOnly Q (bind m k).
Proof.
  intros Hm Hk w. unfold bind. destruct (Hm w) as (evs1 & H1 & HQ1).
  destruct (m w) as [w1 [a|e]]; simpl in *; [|by exists evs1].
  destruct (Hk a w1) as (evs2 & H2 & HQ2).
  exists (evs1 ++ evs2). rewrite H2, H1, app_assoc. split; [done|].
  by apply Forall_app.
Qed.

Lemma appendsOnly_try_catch {A} (m : M D A) (handler : Exn → M D A) :
  appendsOnly Q m → (∀ e, appendsOnly Q (handler e)) →
  appendsOnly Q (try_catch m handler).
Proof.
  intros Hm Hh w. unfold try_catch. destruct (Hm w) as (evs1 & H1 & HQ1).
  destruct (m w) as [w1 [a|e]]; simpl in *; [by exists evs1|].
  destruct (Hh e w1) as (evs2 & H2 & HQ2).
  exists (evs1 ++ evs2). rewrite H2, H1, app_assoc. split; [done|].
  by apply Forall_app.
Qed.

Lemma appendsOnly_forEachM {A} (g : A → M D unit) xs :
  (∀ x, appendsOnly Q (g x)) → appendsOnly Q (forEachM g xs).
Proof.
  intros Hg. induction xs as [|x xs IH]; simpl.
  - by apply appendsOnly_same.
  - apply appendsOnly_bind; auto.
Qed.

Lemma appendsOnly_ds c : Q (EvDs c) → appendsOnly Q (ds c).
Proof.
  intros Hc w. exists [EvDs c]. split; [apply (trace_ds ds_exec)|].
  by constructor.
Qed.

Lemma appendsOnly_consoleError s :
  Q (EvConsoleError s) → appendsOnly Q (@consoleError D s).
Proof. intros Hs w. exists [EvConsoleError s]. split; [done | by constructor]. Qed.

End Appends.

(** The events of one step of the replay: calls on the datastore, of
    which a [softRemove] or a [remove] carries the save options, and lines
    on the console. *)
Lemma appendsOnly_replayTransaction (Q : Event → Prop) so t :
  (∀ c, removesWith so (EvDs c) → Q (EvDs c)) → (∀ s, Q (EvConsoleError s)) →
  appendsOnly Q (replayTransaction so t).
Proof.
  intros Hds Hlog.
  assert (Hcall : ∀ c, removesWith so (EvDs c) → appendsOnly Q (ds c >> ret tt)).
  { intros c Hc. apply appendsOnly_bind; [by apply appendsOnly_ds, Hds|].
    intros; by apply appendsOnly_same. }
  unfold TransactionScope.replayTransaction.
  assert (Hentity : appendsOnly Q
            match objectState t with
            | Some Insert => replayInsert so t
            | Some Update => replayUpdate so t
            | Some Delete => ds (DsSoftRemove (object t) so) >> ret tt
            | Some HardDelete => ds (DsRemove (object t) so) >> ret tt
            | None => ret tt
            end).
  { destruct (objectState t) as [[]|]; [| | | |by apply appendsOnly_same].
    - intros w. destruct (replayInsert_trace so t w)
        as [(c & Ht & Hc)|(message & _ & Hrun)].
      + exists [EvDs c]. split; [done|]. constructor; [by apply Hds | done].
      + exists []. rewrite Hrun, app_nil_r. done.
    - intros w. destruct (replayUpdate_cases so t w)
        as [(c & Hrun & Hc)|[(_ & _ & Hrun)|(message & _ & Hrun)]].
      + rewrite Hrun. by apply Hcall.
      + rewrite Hrun. eexists [_]. split; [reflexivity|].
        constructor; [apply Hlog | done].
      + exists []. rewrite Hrun, app_nil_r. done.
    - by apply Hcall.
    - by apply Hcall. }
  destruct (type t); [|exact Hentity|exact Hentity].
  apply appendsOnly_bind; [by apply appendsOnly_same|]. intros h.
  by apply Hcall.
Qed.

Lemma appendsOnly_commitWork_calls (Q : Event → Prop) so bulk :
  (∀ c, removesWith so (EvDs c) → Q (EvDs c)) → (∀ s, Q (EvConsoleError s)) →
  appendsOnly Q (commitWork so bulk).
Proof.
  intros Hds Hlog.
  unfold TransactionScope.commitWork. destruct bulk.
  - apply appendsOnly_bind; [by apply appendsOnly_same|]. intros q.
    apply appendsOnly_bind; [by apply appendsOnly_same|]. intros cs.
    apply appendsOnly_bind; [by apply appendsOnly_ds, Hds|]. intros _.
    case_match; [|by apply appendsOnly_same].
    apply appendsOnly_forEachM. intros r.
    apply appendsOnly_bind; [by apply appendsOnly_ds, Hds|].
    intros; by apply appendsOnly_same.
  - apply appendsOnly_bind; [by apply appendsOnly_same|]. intros q.
    apply appendsOnly_forEachM. intros t.
    by apply appendsOnly_replayTransaction.
Qed.

Lemma appendsOnly_commitWork (Q : Event → Prop) so bulk :
  (∀ c, Q (EvDs c)) → (∀ s, Q (EvConsoleError s)) →
  appendsOnly Q (commitWork so bulk).
Proof. intros Hds Hlog. apply appendsOnly_commitWork_calls; auto. Qed.

Lemma transaction_eq {A} (work : M D A) (w : World D) :
  transaction work w =
    match ds DsStartTransaction w with
    | (wb, Throw e) => ((ds DsRollbackTransaction wb).1, Throw e)
    | (wb, Normal _) =>
        match work wb with
        | (wk, Throw e) => ((ds DsRollbackTransaction wk).1, Throw e)
        | (wk, Normal result) =>
            match ds DsCommitTransaction wk with
            | (wc, Throw e) => ((ds DsRollbackTransaction wc).1, Throw e)
            | (wc, Normal _) => (wc, Normal result)
            end
        end
    end.
Proof.
  assert (Hrb : ∀ e v,
            (try_catch (ds DsRollbackTransaction >> ret tt) (λ _, ret tt) >>
             @throw D A e) v = ((ds DsRollbackTransaction v).1, Throw e)).
  { intros e v. unfold try_catch, bind.
    by destruct (ds DsRollbackTransaction v) as [v1 [a|e1]]. }
  unfold TransactionScope.transaction, try_catch at 1, bind at 1 2 3.
  destruct (ds DsStartTransaction w) as [wb [ms|e]]; [|apply Hrb].
  destruct (work wb) as [wk [result|e]]; [|apply Hrb].
  destruct (ds DsCommitTransaction wk) as [wc [m|e]]; [done | apply Hrb].
Qed.

(** When the [try] block of [commit] completes normally, the last thing
    that happened is the commit of the transaction. *)
Lemma commitTransaction_normal_trace (Q : Event → Prop) so bulk (w w1 : World D) :
  (∀ c, Q (EvDs c)) → (∀ s, Q (EvConsoleError s)) →
  commitTransaction so bulk w = (w1, Normal tt) →
  ∃ evs, trace w1 = trace w ++ evs ++ [EvDs DsCommitTransaction] ∧ Forall Q evs.
Proof.
  intros Hds Hlog Hrun.
  destruct (transaction (commitWork so bulk) w) as [w2 [[]|e]] eqn:Htx.
  2:{ rewrite (commitTransaction_of_throw ds_exec getPropertiesToUpdate mergeDeep
                 _ _ _ _ _ Htx) in Hrun. discriminate. }
  rewrite (commitTransaction_of_normal ds_exec getPropertiesToUpdate mergeDeep
             _ _ _ _ Htx) in Hrun.
  injection Hrun as <-. simpl.
  rewrite transaction_eq in Htx.
  destruct (appendsOnly_ds Q DsStartTransaction (Hds _) w) as (evs1 & Ht1 & HQ1).
  destruct (ds DsStartTransaction w) as [wb [ms|e]]; [|discriminate].
  destruct (appendsOnly_commitWork Q so bulk Hds Hlog wb) as (evs2 & Ht2 & HQ2).
  destruct (commitWork so bulk wb) as [wk [[]|e]]; [|discriminate].
  pose proof (trace_ds ds_exec DsCommitTransaction wk) as Ht3.
  destruct (ds DsCommitTransaction wk) as [wc [m|e]]; [|discriminate].
  injection Htx as <-. simpl in *.
  exists (evs1 ++ evs2). rewrite Ht3, Ht2, Ht1, <- !app_assoc.
  split; [done | by apply Forall_app].
Qed.

Lemma issued_listeners (tr : list Event) (hooks : list HooksMetaData) :
  issued (tr ++ (EvListener <$> hooks)) = issued tr.
Proof.
  unfold issued. rewrite omap_app.
  assert (H : omap (λ ev, match ev with EvDs c => Some c | _ => None end)
                (EvListener <$> hooks) = []).
  { induction hooks as [|hook hooks IH]; [done | exact IH]. }
  by rewrite H, app_nil_r.
Qed.

(** X12.  Commit first, notify second.  The events of a [commit] are
    those of its transaction followed by those of its hooks: the first hold
    no call of a listener, the second no call on the datastore; and if any
    event of the hooks is there at all, the transaction part ends with the
    commit of the transaction. *)
Theorem X12_listeners_run_after_the_transaction so ro bulk (w : World D) :
  ∃ txEvents hookEvents,
    trace (commit so ro bulk w).1 = trace w ++ txEvents ++ hookEvents
    ∧ invoked txEvents = []
    ∧ issued hookEvents = []
    ∧ (hookEvents ≠ [] →
       ∃ evs, txEvents = evs ++ [EvDs DsCommitTransaction]).
Proof.
  set (Q := λ ev, isListenerEvent ev = false).
  assert (HQ : ∀ evs, Forall Q evs → invoked evs = []).
  { induction 1 as [|ev evs Hev _ IH]; [done|].
    unfold invoked in *. simpl. by destruct ev. }
  destruct (commitTransaction so bulk w) as [w1 [[]|e]] eqn:Hct.
  - destruct (commitTransaction_normal_trace Q so bulk w w1) as (evs & Ht & Hevs);
      [done | done | done |].
    rewrite (commit_of_normal ds_exec getPropertiesToUpdate mergeDeep
               so ro bulk w w1 Hct).
    rewrite processAfterCommitHooks_eq.
    destruct (mapM_invokeListener (_hooks w1) w1) as (r & Hrun & _).
    rewrite Hrun.
    exists (evs ++ [EvDs DsCommitTransaction]).
    destruct r as [ps|e]; simpl.
    + exists (EvListener <$> calledHooks (_hooks w1)).
      rewrite Ht, <- !app_assoc. split; [done|].
      split; [apply HQ, Forall_app; split; [done | by repeat constructor]|].
      split; [apply (issued_listeners [])|]. eauto.
    + exists ((EvListener <$> calledHooks (_hooks w1))
              ++ [EvConsoleError
                    "error while executing transaction scope AfterCommit Hooks"]).
      rewrite Ht, <- !app_assoc. split; [done|].
      split; [apply HQ, Forall_app; split; [done | by repeat constructor]|].
      split; [|eauto].
      unfold issued. rewrite omap_app. simpl. rewrite app_nil_r.
      apply (issued_listeners []).
  - rewrite (commit_of_throw ds_exec getPropertiesToUpdate mergeDeep
               so ro bulk w w1 e Hct).
    assert (Happ : appendsOnly Q (commitTransaction so bulk)).
    { unfold TransactionScope.commitTransaction.
      apply appendsOnly_try_catch.
      - apply appendsOnly_bind; [|intros; by apply appendsOnly_same].
        unfold TransactionScope.transaction. apply appendsOnly_try_catch.
        + apply appendsOnly_bind; [by apply appendsOnly_ds|]. intros _.
          apply appendsOnly_bind; [by apply appendsOnly_commitWork|]. intros r.
          apply appendsOnly_bind; [by apply appendsOnly_ds|].
          intros; by apply appendsOnly_same.
        + intros e'. apply appendsOnly_bind; [|intros; by apply appendsOnly_same].
          apply appendsOnly_try_catch; [|intros; by apply appendsOnly_same].
          apply appendsOnly_bind; [by apply appendsOnly_ds|].
          intros; by apply appendsOnly_same.
      - intros e'. apply appendsOnly_bind; intros; by apply appendsOnly_same. }
    destruct (Happ w) as (evs & Ht & Hevs). rewrite Hct in Ht. simpl in Ht.
    exists evs, []. rewrite app_nil_r. split; [done|].
    split; [by apply HQ|]. split; done.
Qed.

(** *** The custom-values methods *)

Lemma copyCustomValues_class obj options (w : World D) l :
  className (heap (copyCustomValues obj options w).1 l) = className (heap w l)
  ∧ isEntityBase (heap (copyCustomValues obj options w).1 l)
      = isEntityBase (heap w l).
Proof.
  assert (H : unchanged (λ w : World D,
                           (className (heap w l), isEntityBase (heap w l)))
                        (copyCustomValues obj options)).
  { apply unchanged_forEachM. intros [k v]. simpl.
    destruct (isFunction v); [apply unchanged_ret|].
    apply unchanged_modify. intros v0. simpl.
    destruct (decide (obj = l)) as [->|Hne].
    - by rewrite fn_lookup_alter.
    - by rewrite fn_lookup_alter_ne. }
  specialize (H w). simpl in H. by injection H.
Qed.

Lemma copyCustomValues_props obj options (w : World D) :
  props (heap (copyCustomValues obj options w).1 obj)
    = filter (λ kv, isFunction kv.2 = false) (values options)
        ∪ props (heap w obj).
Proof.
  destruct (copyCustomValues_copies obj options w)
    as (w1 & Hrun & _ & _ & _ & _ & Hprops).
  rewrite Hrun. simpl. apply map_eq. intros key.
  rewrite Hprops, lookup_union, map_lookup_filter.
  destruct (values options !! key) as [v|] eqn:Hv; simpl.
  - destruct (isFunction v) eqn:Hf.
    + rewrite option_guard_False by (simpl; congruence). simpl.
      by destruct (props (heap w obj) !! key).
    + rewrite option_guard_True by done. simpl.
      by destruct (props (heap w obj) !! key).
  - by destruct (props (heap w obj) !! key).
Qed.

(** The class label after the copy: a non-callable [constructor] entry of
    [options.values] takes the place of the constructor. *)
Lemma copyCustomValues_constructorName obj options (w : World D) :
  constructorName (heap (copyCustomValues obj options w).1) (PRef obj) =
    match values options !! "constructor" with
    | Some v => if isFunction v then constructorName (heap w) (PRef obj)
                else nameOf v
    | None => constructorName (heap w) (PRef obj)
    end.
Proof.
  pose proof (copyCustomValues_class obj options w obj) as [Hcls _].
  destruct (copyCustomValues_copies obj options w)
    as (w1 & Hrun & _ & _ & _ & _ & Hprops).
  rewrite Hrun in *. simpl in Hcls. unfold constructorName. simpl.
  rewrite Hprops, Hcls.
  destruct (values options !! "constructor") as [v|]; [|done].
  by destruct (isFunction v).
Qed.

(** X13.  What [updateWithCustomValues] leaves behind, for options whose
    values do not name [__proto__]: the fields of the entity become the
    non-callable entries of [options.values] laid over the fields it had (a
    field that [options.values] does not name, or names with a callable,
    keeps its value); the class that [entity.constructor.name] names becomes
    the [name] of a non-callable [constructor] entry when there is one, and
    is unchanged otherwise; every other entity, the hook registry and the
    trace are untouched; and the queue grows by one record. *)
Theorem X13_updateWithCustomValues_overlays_fields
    (w : World D) (obj : nat) (options : TransactionScopeOptions) :
  values options !! "__proto__" = None →
  let w' := (updateWithCustomValues obj options w).1 in
  props (heap w' obj)
    = filter (λ kv, isFunction kv.2 = false) (values options)
        ∪ props (heap w obj)
  ∧ constructorName (heap w') (PRef obj) =
      match values options !! "constructor" with
      | Some v => if isFunction v then constructorName (heap w) (PRef obj)
                  else nameOf v
      | None => constructorName (heap w) (PRef obj)
      end
  ∧ (∀ l, l ≠ obj → heap w' l = heap w l)
  ∧ _hooks w' = _hooks w
  ∧ trace w' = trace w
  ∧ length (_transactionObjects w') = S (length (_transactionObjects w)).
Proof.
  intros _.
  pose proof (copyCustomValues_props obj options w) as Hprops.
  pose proof (copyCustomValues_constructorName obj options w) as Hcls.
  destruct (copyCustomValues_copies obj options w)
    as (w1 & Hrun & Hq & Hh & Ht & Hother & _).
  rewrite Hrun in Hprops, Hcls. simpl in Hprops, Hcls.
  unfold updateWithCustomValues.
  erewrite bind_normal by exact Hrun. simpl.
  repeat (split; [done|]). rewrite Hq, length_app. simpl. lia.
Qed.

(** X14.  Merging the same custom values a second time changes no field of
    the entity: the fields after two calls of [updateWithCustomValues] with
    the same options are the fields after one. *)
Theorem X14_custom_values_merge_is_idempotent
    (w : World D) (obj : nat) (options : TransactionScopeOptions) :
  let w1 := (updateWithCustomValues obj options w).1 in
  let w2 := (updateWithCustomValues obj options w1).1 in
  props (heap w2 obj) = props (heap w1 obj).
Proof.
  assert (Hstep : ∀ v : World D,
            props (heap (updateWithCustomValues obj options v).1 obj)
            = filter (λ kv, isFunction kv.2 = false) (values options)
                ∪ props (heap v obj)).
  { intros v. rewrite <- copyCustomValues_props.
    destruct (copyCustomValues_copies obj options v) as (v1 & Hrun & _).
    unfold updateWithCustomValues. erewrite bind_normal by exact Hrun.
    by rewrite Hrun. }
  simpl. rewrite !Hstep.
  by rewrite (assoc_L (∪)), (idemp_L (∪)).
Qed.

(** X15.  The criteria that [insertWithCustomValues] refuses is honoured
    for an update: for an entity without a snapshot, staged by
    [updateWithCustomValues] with a non-empty [where] on a scope with nothing
    else pending, the non-bulk replay makes one [update] call, with that
    criteria and with [options.values] as they were passed.  The call goes to
    the class that [entity.constructor.name] names once the values have been
    copied: the class of the entity when the values name no [constructor],
    the [name] of their [constructor] entry when they do. *)
Theorem X15_update_with_criteria_reaches_datastore
    so (w : World D) (obj : nat) (options : TransactionScopeOptions)
    (s : string) (cls : Value) :
  _transactionObjects w = [] →
  where_ options = Some s →
  s ≠ "" →
  isEntityBase (heap w obj) = true →
  truthy (getProp (heap w) obj "entitySnapshot") = false →
  values options !! "entitySnapshot" = None →
  values options !! "__proto__" = None →
  constructorName (heap (updateWithCustomValues obj options w).1) (PRef obj)
    = Normal cls →
  issued (trace (commitWork so false (updateWithCustomValues obj options w).1).1)
    = issued (trace w) ++ [DsUpdate cls (CriteriaWhere s) (values options)]
  ∧ (values options !! "constructor" = None →
     constructorName (heap w) (PRef obj) = Normal cls)
  ∧ (∀ v, values options !! "constructor" = Some v → isFunction v = false →
     nameOf v = Normal cls).
Proof.
  intros Hq Hwhere Hs Hinst Hsnap Hno _ Hcls.
  pose proof (copyCustomValues_class obj options w obj) as [_ Hinst'].
  pose proof (copyCustomValues_constructorName obj options w) as Hname.
  destruct (copyCustomValues_copies obj options w)
    as (w1 & Hrun & Hq1 & _ & Ht1 & _ & Hp1).
  rewrite Hrun in Hinst', Hname. cbn [fst] in Hinst', Hname.
  set (t := mkTransactionScopeObject EntityCollection (PRef obj)
              (Some Update) (Some options)).
  set (w' := set_transactionObjects (_transactionObjects w1 ++ [t]) w1).
  assert (Hw' : updateWithCustomValues obj options w = (w', Normal tt)).
  { unfold updateWithCustomValues. by erewrite bind_normal by exact Hrun. }
  rewrite Hw' in *. cbn [fst] in *.
  assert (Hcls' : constructorName (heap w1) (PRef obj) = Normal cls) by exact Hcls.
  split; [|split].
  - assert (Hq' : _transactionObjects w' = [t]).
    { subst w'. simpl. by rewrite Hq1, Hq. }
    rewrite (commitWork_replays ds_exec getPropertiesToUpdate mergeDeep), Hq'.
    cbn [forEachM].
    assert (Hstep : replayTransaction so t w' =
              (ds (DsUpdate cls (CriteriaWhere s) (values options)) >> ret tt) w').
    { apply (replayTransaction_dispatch ds_exec getPropertiesToUpdate mergeDeep).
      unfold TransactionScope.specDispatch.
      change (heap w') with (heap w1).
      subst t. cbn -[constructorName carriesSnapshot getProp specCriteria].
      rewrite Hinst', Hinst. unfold carriesSnapshot, getProp.
      rewrite Hp1, Hno. unfold getProp in Hsnap. rewrite Hsnap, Hcls'.
      unfold specCriteria. rewrite Hwhere. by case_decide. }
    unfold bind at 1. rewrite Hstep.
    pose proof (issued_ds (DsUpdate cls (CriteriaWhere s) (values options)) w')
      as Hcall.
    assert (Htr : trace w' = trace w) by (subst w'; simpl; done).
    rewrite Htr in Hcall. unfold bind.
    by destruct (ds (DsUpdate cls (CriteriaWhere s) (values options)) w')
      as [w2 [m|e]].
  - intros Hnone. rewrite Hname, Hnone in Hcls'. exact Hcls'.
  - intros v Hv Hfun. rewrite Hname, Hv, Hfun in Hcls'. exact Hcls'.
Qed.

(** *** The hook registry *)

Lemma logged_listeners (tr : list Event) (hooks : list HooksMetaData) :
  logged (tr ++ (EvListener <$> hooks)) = logged tr.
Proof.
  unfold logged. rewrite omap_app.
  assert (H : omap (λ ev, match ev with EvConsoleError s => Some s | _ => None end)
                (EvListener <$> hooks) = []).
  { induction hooks as [|hook hooks IH]; [done | exact IH]. }
  by rewrite H, app_nil_r.
Qed.

(** What the [map] over the hooks does: either no listener throws and
    every hook is called, or the first listener that throws is the last one
    called and its error is the outcome. *)
Lemma mapM_invokeListener_split (hooks : list HooksMetaData) (w : World D) :
  (Forall (λ hook, ∀ e, listener hook (data hook) ≠ Threw e) hooks
   ∧ ∃ promises,
       mapM invokeListener hooks w =
         (mkWorld (heap w) (_transactionObjects w) (_hooks w) (db w)
                  (trace w ++ (EvListener <$> hooks)), Normal promises))
  ∨ (∃ before hook after e,
       hooks = before ++ hook :: after
       ∧ Forall (λ hook, ∀ e, listener hook (data hook) ≠ Threw e) before
       ∧ listener hook (data hook) = Threw e
       ∧ mapM invokeListener hooks w =
           (mkWorld (heap w) (_transactionObjects w) (_hooks w) (db w)
                    (trace w ++ (EvListener <$> before ++ [hook])), Throw e)).
Proof.
  revert w. induction hooks as [|hook hooks IH]; intros w.
  - left. split; [constructor|]. exists []. simpl. unfold ret.
    rewrite app_nil_r. by destruct w.
  - assert (Hgo : (∀ e, listener hook (data hook) ≠ Threw e) →
                  ∀ promise,
                    invokeListener hook w = (emit (EvListener hook) w, Normal promise) →
                    (Forall (λ hook, ∀ e, listener hook (data hook) ≠ Threw e)
                       (hook :: hooks)
                     ∧ ∃ promises,
                         mapM invokeListener (hook :: hooks) w =
                           (mkWorld (heap w) (_transactionObjects w) (_hooks w) (db w)
                                    (trace w ++ (EvListener <$> hook :: hooks)),
                            Normal promises))
                    ∨ (∃ before hook' after e,
                         hook :: hooks = before ++ hook' :: after
                         ∧ Forall (λ hook, ∀ e, listener hook (data hook) ≠ Threw e)
                             before
                         ∧ listener hook' (data hook') = Threw e
                         ∧ mapM invokeListener (hook :: hooks) w =
                             (mkWorld (heap w) (_transactionObjects w) (_hooks w) (db w)
                                      (trace w ++ (EvListener <$> before ++ [hook'])),
                              Throw e))).
    { intros Hquiet promise Hcall.
      assert (Heq : mapM invokeListener (hook :: hooks) w =
                match mapM invokeListener hooks (emit (EvListener hook) w) with
                | (w2, Normal ps) => (w2, Normal (promise :: ps))
                | (w2, Throw e) => (w2, Throw e)
                end).
      { cbn [mapM]. unfold bind at 1. rewrite Hcall. unfold bind, ret.
        by destruct (mapM invokeListener hooks (emit (EvListener hook) w))
          as [w2 [ps|e]]. }
      rewrite Heq.
      destruct (IH (emit (EvListener hook) w))
        as [(Hall & ps & Hrun)|(before & hook' & after & e & -> & Hb & Hth & Hrun)].
      - left. split; [by constructor|]. exists (promise :: ps).
        rewrite Hrun. cbn [emit heap _transactionObjects _hooks db trace].
        by rewrite <- app_assoc.
      - right. exists (hook :: before), hook', after, e.
        split; [done|]. split; [by constructor|]. split; [done|].
        rewrite Hrun. cbn [emit heap _transactionObjects _hooks db trace].
        by rewrite <- app_assoc. }
    pose proof (invokeListener_eq hook w) as Hcall.
    destruct (listener hook (data hook)) as [|e|e] eqn:Hl.
    + by apply (Hgo ltac:(intros e; discriminate) Fulfilled).
    + right. exists [], hook, hooks, e. split; [done|]. split; [constructor|].
      split; [done|]. cbn [mapM]. unfold bind at 1. by rewrite Hcall.
    + by apply (Hgo ltac:(intros e'; discriminate) (RejectedWith e)).
Qed.

(** X16.  Running the hooks.  Either no listener throws (a promise that
    rejects does not count): then every hook is called, in the order of
    registration and once each, nothing is written to the console and the
    run completes normally.  Or some listener throws: then the hooks before
    the first such listener and that listener are called, in order, and no
    hook after it; the one line is written to the console and the run raises
    what the listener threw.  Either way nothing else happens (no call on the
    datastore), the registry is empty afterwards and the queue is as it
    was. *)
Theorem X16_running_the_hooks (w : World D) :
  let r := processAfterCommitHooks w in
  _hooks r.1 = []
  ∧ _transactionObjects r.1 = _transactionObjects w
  ∧ issued (trace r.1) = issued (trace w)
  ∧ ((Forall (λ hook, ∀ e, listener hook (data hook) ≠ Threw e) (_hooks w)
      ∧ r.2 = Normal tt
      ∧ trace r.1 = trace w ++ (EvListener <$> _hooks w)
      ∧ invoked (trace r.1) = invoked (trace w) ++ _hooks w
      ∧ logged (trace r.1) = logged (trace w))
     ∨ (∃ before hook after e,
          _hooks w = before ++ hook :: after
          ∧ Forall (λ hook, ∀ e, listener hook (data hook) ≠ Threw e) before
          ∧ listener hook (data hook) = Threw e
          ∧ r.2 = Throw e
          ∧ trace r.1 =
              trace w ++ (EvListener <$> before ++ [hook])
                ++ [EvConsoleError
                      "error while executing transaction scope AfterCommit Hooks"]
          ∧ invoked (trace r.1) = invoked (trace w) ++ before ++ [hook]
          ∧ logged (trace r.1) =
              logged (trace w)
                ++ ["error while executing transaction scope AfterCommit Hooks"])).
Proof.
  cbv zeta. rewrite processAfterCommitHooks_eq.
  destruct (mapM_invokeListener_split (_hooks w) w)
    as [(Hall & ps & Hrun)|(before & hook & after & e & Hh & Hb & Hth & Hrun)];
    rewrite Hrun; cbn [fst snd set_hooks emit heap _transactionObjects _hooks db trace].
  - split; [done|]. split; [done|]. split; [apply issued_listeners|].
    left. split; [done|]. split; [done|]. split; [done|].
    split; [apply invoked_listeners | apply logged_listeners].
  - split; [done|]. split; [done|].
    split.
    { unfold issued. rewrite omap_app. simpl. rewrite app_nil_r.
      apply issued_listeners. }
    right. exists before, hook, after, e.
    split; [done|]. split; [done|]. split; [done|]. split; [done|].
    split; [by rewrite <- app_assoc|]. split.
    + unfold invoked. rewrite omap_app. simpl. rewrite app_nil_r.
      apply invoked_listeners.
    + unfold logged at 1. rewrite omap_app. simpl.
      fold (logged (trace w ++ (EvListener <$> before ++ [hook]))).
      by rewrite logged_listeners.
Qed.

(** X17.  [resetAfterCommit] empties the registry and leaves the queue
    alone; the commit that follows replays the queue as usual but calls no
    listener. *)
Theorem X17_reset_hooks_are_not_run so ro bulk (w : World D) :
  _hooks (resetAfterCommit w).1 = []
  ∧ _transactionObjects (resetAfterCommit w).1 = _transactionObjects w
  ∧ invoked (trace (commit so ro bulk (resetAfterCommit w).1).1)
      = invoked (trace w).
Proof.
  set (w0 := (resetAfterCommit w).1).
  assert (Hh0 : _hooks w0 = []) by (subst w0; simpl; apply excludeHooks_none).
  split; [done|]. split; [done|].
  change (trace w) with (trace w0).
  pose proof (unchanged_commitTransaction ds_exec getPropertiesToUpdate mergeDeep
                _hooks so bulk hooks_outOfReach (λ _ _, eq_refl) w0) as Hhooks.
  pose proof (unchanged_commitTransaction ds_exec getPropertiesToUpdate mergeDeep
                (λ w, invoked (trace w)) so bulk (invoked_outOfReach)
                (λ _ _, eq_refl) w0) as Hinv.
  destruct (commitTransaction so bulk w0) as [w1 [[]|e]] eqn:Hct; simpl in *.
  - rewrite (commit_of_normal ds_exec getPropertiesToUpdate mergeDeep
               so ro bulk w0 w1 Hct).
    destruct (processAfterCommitHooks_runs w1) as (Hcalled & _).
    by rewrite Hcalled, Hhooks, Hh0, app_nil_r.
  - by rewrite (commit_of_throw ds_exec getPropertiesToUpdate mergeDeep
                  so ro bulk w0 w1 e Hct).
Qed.

(** X18.  After a commit that has returned normally the scope is as good
    as new: the queue and the registry are both empty, so that a second
    commit calls no listener and, in non-bulk mode, its callback makes no
    call on the datastore. *)
Theorem X18_second_commit_has_nothing_to_do
    so ro bulk (w w1 : World D) so' ro' bulk' :
  commit so ro bulk w = (w1, Normal tt) →
  _transactionObjects w1 = []
  ∧ _hooks w1 = []
  ∧ invoked (trace (commit so' ro' bulk' w1).1) = invoked (trace w1)
  ∧ ∀ wb ms, ds DsStartTransaction w1 = (wb, Normal ms) →
             commitWork so' false wb = (wb, Normal tt).
Proof.
  intros Hrun.
  assert (Hempty : _transactionObjects w1 = [] ∧ _hooks w1 = []).
  { pose proof (commitTransaction_resets ds_exec getPropertiesToUpdate mergeDeep
                  so bulk w) as Hreset.
    destruct (commitTransaction so bulk w) as [w2 [[]|e]] eqn:Hct.
    - rewrite (commit_of_normal ds_exec getPropertiesToUpdate mergeDeep
                 so ro bulk w w2 Hct) in Hrun.
      destruct (processAfterCommitHooks_runs w2) as (_ & Hnone & Hq & _).
      rewrite Hrun in Hnone, Hq. simpl in *. split; congruence.
    - rewrite (commit_of_throw ds_exec getPropertiesToUpdate mergeDeep
                 so ro bulk w w2 e Hct) in Hrun. discriminate. }
  destruct Hempty as [Hq Hh]. split; [done|]. split; [done|]. split.
  - pose proof (unchanged_commitTransaction ds_exec getPropertiesToUpdate mergeDeep
                  _hooks so' bulk' hooks_outOfReach (λ _ _, eq_refl) w1) as Hhooks.
    pose proof (unchanged_commitTransaction ds_exec getPropertiesToUpdate mergeDeep
                  (λ w, invoked (trace w)) so' bulk' (invoked_outOfReach)
                  (λ _ _, eq_refl) w1) as Hinv.
    destruct (commitTransaction so' bulk' w1) as [w2 [[]|e]] eqn:Hct; simpl in *.
    + rewrite (commit_of_normal ds_exec getPropertiesToUpdate mergeDeep
                 so' ro' bulk' w1 w2 Hct).
      destruct (processAfterCommitHooks_runs w2) as (Hcalled & _).
      by rewrite Hcalled, Hhooks, Hh, app_nil_r.
    + by rewrite (commit_of_throw ds_exec getPropertiesToUpdate mergeDeep
                    so' ro' bulk' w1 w2 e Hct).
  - intros wb ms Hstart.
    pose proof (queue_ds ds_exec DsStartTransaction w1) as Hqb.
    rewrite Hstart in Hqb. simpl in Hqb.
    rewrite (commitWork_replays ds_exec getPropertiesToUpdate mergeDeep).
    by rewrite Hqb, Hq.
Qed.

(** X19.  [updateCollection], given a collection of entities, touches
    nothing but the queue.  It appends Update records without options: one
    per element, in the order of the collection, when some element has a
    truthy [entitySnapshot], and otherwise a single record that holds the
    array; for an empty collection that is a single record holding the empty
    array. *)
Theorem X19_updateCollection_is_all_or_nothing
    (collection : list nat) (w : World D) :
  let r := updateCollection collection w in
  heap r.1 = heap w ∧ _hooks r.1 = _hooks w ∧ trace r.1 = trace w
  ∧ ∃ recs,
      _transactionObjects r.1 = _transactionObjects w ++ recs
      ∧ Forall (λ t, objectState t = Some Update ∧ options t = None) recs
      ∧ object <$> recs =
          (if existsb (λ col, truthy (getProp (heap w) col "entitySnapshot"))
                collection
           then PRef <$> collection
           else [PArr collection])
      ∧ (collection = [] → object <$> recs = [PArr []]).
Proof.
  simpl. rewrite updateCollection_stages. simpl.
  repeat (split; [done|]). eexists. split; [reflexivity|].
  destruct (existsb _ collection) eqn:Hany.
  - split; [apply Forall_fmap; by apply Forall_true|].
    split; [by rewrite <- list_fmap_compose|].
    intros ->. discriminate.
  - split; [by repeat constructor|]. split; [done|]. by intros ->.
Qed.

(** *** The loop of the non-bulk path, seen from [commit] *)

Lemma appendsOnly_processAfterCommitHooks (Q : Event → Prop) :
  (∀ hook, Q (EvListener hook)) → (∀ s, Q (EvConsoleError s)) →
  appendsOnly Q (@processAfterCommitHooks D).
Proof.
  intros Hl Hlog w. rewrite processAfterCommitHooks_eq.
  destruct (mapM_invokeListener (_hooks w) w) as (r & Hrun & _). rewrite Hrun.
  assert (HQ : Forall Q (EvListener <$> calledHooks (_hooks w))).
  { apply Forall_fmap, Forall_true. intros hook. apply Hl. }
  destruct r as [ps|e]; simpl.
  - by eexists.
  - eexists (_ ++ [_]). rewrite app_assoc. split; [done|].
    apply Forall_app. split; [done|]. by repeat constructor.
Qed.

Lemma appendsOnly_commit (Q : Event → Prop) so ro bulk :
  (∀ c, removesWith so (EvDs c) → Q (EvDs c)) →
  (∀ s, Q (EvConsoleError s)) →
  (∀ hook, Q (EvListener hook)) →
  appendsOnly Q (commit so ro bulk).
Proof.
  intros Hds Hlog Hl. unfold TransactionScope.commit.
  apply appendsOnly_bind;
    [|intros; by apply appendsOnly_processAfterCommitHooks].
  unfold TransactionScope.commitTransaction.
  apply appendsOnly_try_catch.
  - apply appendsOnly_bind; [|intros; by apply appendsOnly_same].
    unfold TransactionScope.transaction. apply appendsOnly_try_catch.
    + apply appendsOnly_bind; [by apply appendsOnly_ds, Hds|]. intros _.
      apply appendsOnly_bind; [by apply appendsOnly_commitWork_calls|]. intros r.
      apply appendsOnly_bind; [by apply appendsOnly_ds, Hds|].
      intros; by apply appendsOnly_same.
    + intros e'. apply appendsOnly_bind; [|intros; by apply appendsOnly_same].
      apply appendsOnly_try_catch; [|intros; by apply appendsOnly_same].
      apply appendsOnly_bind; [by apply appendsOnly_ds, Hds|].
      intros; by apply appendsOnly_same.
  - intros e'. apply appendsOnly_bind; intros; by apply appendsOnly_same.
Qed.

(** [commit] in non-bulk mode, from the moment its loop reaches a record:
    the step for that record, then the later records, then the commit of the
    transaction, then the hooks; the first of these that raises sends
    [commit] to the rollback, with the queue emptied and the error raised
    again. *)
Lemma commit_reaches so ro (w : World D) before t after wb ms w1 :
  _transactionObjects w = before ++ t :: after →
  ds DsStartTransaction w = (wb, Normal ms) →
  forEachM (replayTransaction so) before wb = (w1, Normal tt) →
  commit so ro false w =
    match replayTransaction so t w1 with
    | (w2, Throw e) =>
        (set_transactionObjects [] (ds DsRollbackTransaction w2).1, Throw e)
    | (w2, Normal _) =>
        match forEachM (replayTransaction so) after w2 with
        | (w3, Throw e) =>
            (set_transactionObjects [] (ds DsRollbackTransaction w3).1, Throw e)
        | (w3, Normal _) =>
            match ds DsCommitTransaction w3 with
            | (w4, Throw e) =>
                (set_transactionObjects [] (ds DsRollbackTransaction w4).1, Throw e)
            | (w4, Normal _) =>
                processAfterCommitHooks (set_transactionObjects [] w4)
            end
        end
    end.
Proof.
  intros Hq Hstart Hbefore.
  assert (Hwork : commitWork so false wb =
            match replayTransaction so t w1 with
            | (w2, Normal _) => forEachM (replayTransaction so) after w2
            | (w2, Throw e) => (w2, Throw e)
            end).
  { rewrite (commitWork_replays ds_exec getPropertiesToUpdate mergeDeep).
    pose proof (queue_ds ds_exec DsStartTransaction w) as Hqb.
    rewrite Hstart in Hqb. simpl in Hqb. rewrite Hqb, Hq, forEachM_app.
    erewrite bind_normal by exact Hbefore. cbn [forEachM]. unfold bind.
    by destruct (replayTransaction so t w1) as [w2 [[]|e]]. }
  pose proof (transaction_eq (commitWork so false) w) as Htx.
  rewrite Hstart, Hwork in Htx.
  destruct (replayTransaction so t w1) as [w2 [[]|e]].
  2:{ by rewrite (commit_of_throw ds_exec getPropertiesToUpdate mergeDeep _ ro _ _ _ _
                    (commitTransaction_of_throw ds_exec getPropertiesToUpdate
                       mergeDeep _ _ _ _ _ Htx)). }
  destruct (forEachM (replayTransaction so) after w2) as [w3 [[]|e]].
  2:{ by rewrite (commit_of_throw ds_exec getPropertiesToUpdate mergeDeep _ ro _ _ _ _
                    (commitTransaction_of_throw ds_exec getPropertiesToUpdate
                       mergeDeep _ _ _ _ _ Htx)). }
  destruct (ds DsCommitTransaction w3) as [w4 [m|e]].
  - by rewrite (commit_of_normal ds_exec getPropertiesToUpdate mergeDeep _ ro _ _ _
                  (commitTransaction_of_normal ds_exec getPropertiesToUpdate
                     mergeDeep _ _ _ _ Htx)).
  - by rewrite (commit_of_throw ds_exec getPropertiesToUpdate mergeDeep _ ro _ _ _ _
                  (commitTransaction_of_throw ds_exec getPropertiesToUpdate
                     mergeDeep _ _ _ _ _ Htx)).
Qed.

(** When the step for the record that the loop has reached is one call on
    the datastore, that call is the next event of [commit]. *)
Lemma commit_calls_next so ro (w : World D) before t after wb ms w1 c :
  _transactionObjects w = before ++ t :: after →
  ds DsStartTransaction w = (wb, Normal ms) →
  forEachM (replayTransaction so) before wb = (w1, Normal tt) →
  replayTransaction so t w1 = (ds c >> ret tt) w1 →
  ∃ rest, trace (commit so ro false w).1 = trace w1 ++ EvDs c :: rest.
Proof.
  intros Hq Hstart Hbefore Hstep.
  rewrite (commit_reaches so ro w before t after wb ms w1 Hq Hstart Hbefore), Hstep.
  set (T := λ _ : Event, True).
  assert (Hrb : ∀ v : World D,
            trace (set_transactionObjects [] (ds DsRollbackTransaction v).1)
              = trace v ++ [EvDs DsRollbackTransaction]).
  { intros v. apply (trace_ds ds_exec). }
  unfold bind at 1.
  pose proof (trace_ds ds_exec c w1) as Hc.
  destruct (ds c w1) as [w2 [maps|e]]; cbn [fst] in Hc; unfold ret; cbv beta iota.
  2:{ cbn [fst]. rewrite Hrb, Hc, <- app_assoc. by eexists. }
  destruct (appendsOnly_forEachM T (replayTransaction so) after
              (λ x, appendsOnly_replayTransaction T so x (λ _ _, I) (λ _, I)) w2)
    as (evs & Ht & _).
  destruct (forEachM (replayTransaction so) after w2) as [w3 [[]|e]];
    cbn [fst] in Ht.
  2:{ cbn [fst]. rewrite Hrb, Ht, Hc, <- !app_assoc. by eexists. }
  pose proof (trace_ds ds_exec DsCommitTransaction w3) as Hcm.
  destruct (ds DsCommitTransaction w3) as [w4 [m|e]]; cbn [fst] in Hcm.
  - destruct (appendsOnly_processAfterCommitHooks T (λ _, I) (λ _, I)
                (set_transactionObjects [] w4)) as (evs' & Ht' & _).
    rewrite Ht'. cbn [set_transactionObjects trace].
    rewrite Hcm, Ht, Hc, <- !app_assoc. by eexists.
  - cbn [fst]. rewrite Hrb, Hcm, Ht, Hc, <- !app_assoc. by eexists.
Qed.

(** C2.  In non-bulk mode [commit] replays the queue in submission order,
    one record at a time.  Once the transaction is started and the records
    before a record have been replayed, the next thing that [commit] does is
    the one datastore call that the dispatch table names for that record, by
    kind and state (query with text and parameters; softRemove; remove; for
    an Update of an entity, field update by id of the changed fields if it
    carries a snapshot, else field update by the options' criteria,
    defaulting to the id, and values, else save).  If that call raises,
    [commit] rolls back and raises the error with no later record replayed;
    if it succeeds, the record counts as replayed and [commit] goes on with
    the records after it, in order, then commits the transaction and runs
    the hooks. *)
Theorem C2_commit_replays_in_order_by_kind_and_state
    so ro (w : World D) before t after wb ms w1 c :
  _transactionObjects w = before ++ t :: after →
  ds DsStartTransaction w = (wb, Normal ms) →
  forEachM (replayTransaction so) before wb = (w1, Normal tt) →
  specDispatch getPropertiesToUpdate so (heap w1) t = Some c →
  (∃ rest, trace (commit so ro false w).1 = trace w1 ++ EvDs c :: rest)
  ∧ (∀ w2 e,
       ds c w1 = (w2, Throw e) →
       commit so ro false w =
         (set_transactionObjects [] (ds DsRollbackTransaction w2).1, Throw e)
       ∧ trace (commit so ro false w).1 =
           trace w1 ++ [EvDs c; EvDs DsRollbackTransaction])
  ∧ (∀ w2 maps,
       ds c w1 = (w2, Normal maps) →
       forEachM (replayTransaction so) (before ++ [t]) wb = (w2, Normal tt)
       ∧ commit so ro false w =
           match forEachM (replayTransaction so) after w2 with
           | (w3, Throw e) =>
               (set_transactionObjects [] (ds DsRollbackTransaction w3).1, Throw e)
           | (w3, Normal _) =>
               match ds DsCommitTransaction w3 with
               | (w4, Throw e) =>
                   (set_transactionObjects [] (ds DsRollbackTransaction w4).1,
                    Throw e)
               | (w4, Normal _) =>
                   processAfterCommitHooks (set_transactionObjects [] w4)
               end
           end).
Proof.
  intros Hq Hstart Hbefore Hspec.
  pose proof (replayTransaction_dispatch ds_exec getPropertiesToUpdate mergeDeep
                so t w1 c Hspec) as Hstep.
  split; [by eapply commit_calls_next|].
  pose proof (commit_reaches so ro w before t after wb ms w1 Hq Hstart Hbefore)
    as Hrun.
  rewrite Hstep in Hrun. unfold bind at 1 in Hrun.
  pose proof (trace_ds ds_exec c w1) as Hc.
  split.
  - intros w2 e Hcall. rewrite Hcall in Hrun, Hc. cbn [fst] in Hc.
    split; [exact Hrun|]. rewrite Hrun. cbn [fst set_transactionObjects trace].
    by rewrite (trace_ds ds_exec), Hc, <- app_assoc.
  - intros w2 maps Hcall. rewrite Hcall in Hrun. split; [|exact Hrun].
    rewrite forEachM_app. erewrite bind_normal by exact Hbefore.
    cbn [forEachM]. unfold bind at 1. rewrite Hstep. unfold bind at 1.
    by rewrite Hcall.
Qed.

(** C10.  [commit] is the same computation whatever its [removeOptions]
    argument; every [softRemove] and every [remove] that a [commit] makes, in
    either mode, carries the [saveOptions] argument; and in non-bulk mode,
    when the loop of [commit] reaches a Delete record, the next thing
    [commit] does is [softRemove] of its object with [saveOptions], and for a
    HardDelete record [remove] of its object with [saveOptions]. *)
Theorem C10_commit_never_uses_removeOptions so ro ro' bulk (w : World D) :
  commit so ro bulk w = commit so ro' bulk w
  ∧ (∃ evs, trace (commit so ro bulk w).1 = trace w ++ evs
            ∧ Forall (removesWith so) evs)
  ∧ ∀ before t after wb ms w1,
      _transactionObjects w = before ++ t :: after →
      ds DsStartTransaction w = (wb, Normal ms) →
      forEachM (replayTransaction so) before wb = (w1, Normal tt) →
      type t ≠ RawQuery →
      (objectState t = Some Delete →
       ∃ rest, trace (commit so ro false w).1
               = trace w1 ++ EvDs (DsSoftRemove (object t) so) :: rest)
      ∧ (objectState t = Some HardDelete →
         ∃ rest, trace (commit so ro false w).1
                 = trace w1 ++ EvDs (DsRemove (object t) so) :: rest).
Proof.
  split; [reflexivity|]. split.
  { apply (appendsOnly_commit (removesWith so) so ro bulk); [done|done|done]. }
  intros before t after wb ms w1 Hq Hstart Hbefore Hty.
  split; intros Hst;
    (eapply commit_calls_next; [exact Hq | exact Hstart | exact Hbefore |]);
    unfold TransactionScope.replayTransaction; rewrite Hst;
    by destruct (type t).
Qed.

(** X20.  A [commit] that raises without having called a listener has
    failed in its transaction, and the hooks are all still registered.  The
    next [commit] on the scope that returns normally, whatever was staged in
    between, has called every one of them, in the order of registration, and
    has emptied the registry. *)
Theorem X20_failed_commit_keeps_the_hooks
    so ro bulk (w w1 : World D) e :
  commit so ro bulk w = (w1, Throw e) →
  invoked (trace w1) = invoked (trace w) →
  commitTransaction so bulk w = (w1, Throw e)
  ∧ _hooks w1 = _hooks w
  ∧ _transactionObjects w1 = []
  ∧ ∀ so' ro' bulk' (w2 w3 : World D),
      _hooks w2 = _hooks w1 →
      commit so' ro' bulk' w2 = (w3, Normal tt) →
      invoked (trace w3) = invoked (trace w2) ++ _hooks w
      ∧ _hooks w3 = [].
Proof.
  intros Hrun Hquiet.
  assert (Hkeep : ∀ s b (v : World D),
            _hooks (commitTransaction s b v).1 = _hooks v).
  { intros s b.
    by apply (unchanged_commitTransaction ds_exec getPropertiesToUpdate mergeDeep
                _hooks s b hooks_outOfReach). }
  assert (Hinv : ∀ s b (v : World D),
            invoked (trace (commitTransaction s b v).1) = invoked (trace v)).
  { intros s b.
    by apply (unchanged_commitTransaction ds_exec getPropertiesToUpdate mergeDeep
                (λ w, invoked (trace w)) s b invoked_outOfReach). }
  assert (Hct : commitTransaction so bulk w = (w1, Throw e)).
  { pose proof (Hinv so bulk w) as Hi.
    destruct (commitTransaction so bulk w) as [v [[]|e']] eqn:Hct.
    - exfalso.
      rewrite (commit_of_normal ds_exec getPropertiesToUpdate mergeDeep
                 so ro bulk w v Hct) in Hrun.
      destruct (processAfterCommitHooks_runs v) as (Hcalled & _).
      rewrite Hrun in Hcalled. cbn [fst] in Hcalled, Hi.
      rewrite Hquiet, <- Hi in Hcalled.
      assert (Hnone : _hooks v = []).
      { destruct (_hooks v) as [|hook hooks]; [done|].
        apply (f_equal length) in Hcalled.
        rewrite length_app in Hcalled. simpl in Hcalled. lia. }
      rewrite processAfterCommitHooks_eq, Hnone in Hrun. discriminate Hrun.
    - rewrite (commit_of_throw ds_exec getPropertiesToUpdate mergeDeep
                 so ro bulk w v e' Hct) in Hrun.
      by injection Hrun as -> ->. }
  assert (Hh1 : _hooks w1 = _hooks w).
  { specialize (Hkeep so bulk w). by rewrite Hct in Hkeep. }
  split; [done|]. split; [done|]. split.
  { pose proof (commitTransaction_resets ds_exec getPropertiesToUpdate mergeDeep
                  so bulk w) as Hreset.
    by rewrite Hct in Hreset. }
  intros so' ro' bulk' w2 w3 Hsame Hrun'.
  pose proof (Hkeep so' bulk' w2) as Hh3. pose proof (Hinv so' bulk' w2) as Ht3.
  destruct (commitTransaction so' bulk' w2) as [v [[]|e']] eqn:Hct'.
  - rewrite (commit_of_normal ds_exec getPropertiesToUpdate mergeDeep
               so' ro' bulk' w2 v Hct') in Hrun'.
    destruct (processAfterCommitHooks_runs v) as (Hcalled & Hnone & _ & Hall).
    rewrite Hrun' in Hcalled, Hnone, Hall. cbn [fst snd] in *.
    rewrite Hall in Hcalled by done. split; [|done]. congruence.
  - rewrite (commit_of_throw ds_exec getPropertiesToUpdate mergeDeep
               so' ro' bulk' w2 v e' Hct') in Hrun'. discriminate.
Qed.

End MoreProperties.

(** ** The further properties on concrete scopes *)

(** X3 at work: a raw query, a Delete of one entity and a batch of two. *)
Lemma X3_witness_mixed_queue :
  let q := [rawRecord "SELECT 1" [];
            mkTransactionScopeObject EntityCollection (PRef 1) (Some Delete) None;
            mkTransactionScopeObject BulkEntityCollnection (PArr [2; 3])
              (Some Insert) None] in
  Forall (λ t, stagedShape t = true) q
  ∧ extractCollectionsFromTransactions q =
      Normal (q ≫= bulkItems, filter (λ t, isRawQuery t = true) q).
Proof.
  intros q.
  assert (Hq : Forall (λ t, stagedShape t = true) q) by (by repeat constructor).
  split; [exact Hq|]. exact (X3_extract_partitions_in_order q Hq).
Defined.

(** X4 at work: a batch record that holds a single entity. *)
Lemma X4_witness_batch_of_an_entity :
  let t := mkTransactionScopeObject BulkEntityCollnection (PRef 1)
             (Some Insert) None in
  type t = BulkEntityCollnection
  ∧ isArray (object t) = false
  ∧ ∃ message,
      extractCollectionsFromTransactions ([rawRecord "SELECT 1" []] ++ t :: [])
        = Throw (TypeError message).
Proof.
  intros t. split; [reflexivity|]. split; [reflexivity|].
  apply (X4_extract_rejects_batch_without_array
           [rawRecord "SELECT 1" []] [] t); reflexivity.
Defined.

(** X5 at work on the same queue as X3. *)
Lemma X5_witness_mixed_queue :
  let w := withQueue
             [rawRecord "SELECT 1" [];
              mkTransactionScopeObject EntityCollection (PRef 1) (Some Delete) None;
              mkTransactionScopeObject BulkEntityCollnection (PArr [2; 3])
                (Some Insert) None] [] in
  Forall (λ t, stagedShape t = true) (_transactionObjects w)
  ∧ ∃ rest,
      issued (trace (commitWork okStore changedFields shallowMerge None true w).1)
        = issued (trace w)
            ++ DsSave (SaveList (_transactionObjects w ≫= bulkItems)) None :: rest
      ∧ Forall (λ c, isQueryCall c = true) rest
      ∧ (length rest
         ≤ length (filter (λ t, isRawQuery t = true) (_transactionObjects w)))%nat
      ∧ ((commitWork okStore changedFields shallowMerge None true w).2 = Normal tt →
         length rest
           = length (filter (λ t, isRawQuery t = true) (_transactionObjects w))).
Proof.
  intros w.
  assert (Hq : Forall (λ t, stagedShape t = true) (_transactionObjects w))
    by (by repeat constructor).
  split; [exact Hq|].
  exact (X5_bulk_commit_saves_once_then_queries
           okStore changedFields shallowMerge None w Hq).
Defined.

(** X6 at work: a scope on which nothing was staged. *)
Lemma X6_witness_fresh_scope :
  _transactionObjects freshWorld = []
  ∧ commitWork okStore changedFields shallowMerge None false freshWorld
      = (freshWorld, Normal tt)
  ∧ commitWork okStore changedFields shallowMerge None true freshWorld
      = (ds okStore (DsSave (SaveList []) None) >> ret tt) freshWorld.
Proof.
  split; [reflexivity|].
  exact (X6_commit_of_empty_queue okStore changedFields shallowMerge
           None freshWorld eq_refl).
Defined.

(** X7 at work: an Update of a plain object. *)
Lemma X7_witness_update_of_plain_object :
  let t := mkTransactionScopeObject EntityCollection (PRef 4) (Some Update) None in
  stagedShape t = true
  ∧ ((∃ c, trace (replayTransaction okStore changedFields shallowMerge
                    None t freshWorld).1 = trace freshWorld ++ [EvDs c])
     ∨ (objectState t = Some Update
        ∧ instanceofEntityBase (heap freshWorld) (object t) = false
        ∧ isArray (object t) = false
        ∧ replayTransaction okStore changedFields shallowMerge None t freshWorld =
            (emit (EvConsoleError "ENTITY NOT AN INSTANCE OF ENTITY BASE") freshWorld,
             Throw (JsError "Entity is not an instance of entity base")))
     ∨ (∃ message,
          constructorName (heap freshWorld) (object t) = Throw (TypeError message)
          ∧ replayTransaction okStore changedFields shallowMerge None t freshWorld
              = (freshWorld, Throw (TypeError message)))).
Proof.
  intros t. split; [reflexivity|].
  exact (X7_one_record_one_call okStore changedFields shallowMerge
           None t freshWorld eq_refl).
Defined.

(** The third case of X7 at work: the entity with a snapshot has an own
    [constructor] that is [null]; the replay of its Update makes no call and
    raises a TypeError. *)
Lemma replay_of_null_constructor :
  let w := set_heap (alter (setProp "constructor" VNull) 3 sampleHeap) freshWorld in
  let t := mkTransactionScopeObject EntityCollection (PRef 3) (Some Update) None in
  stagedShape t = true
  ∧ ∃ message,
      replayTransaction okStore changedFields shallowMerge None t w
        = (w, Throw (TypeError message)).
Proof. intros w t. split; [reflexivity|]. eexists. reflexivity. Qed.

(** X8 at work: an Insert record with options for a plain object, on a
    datastore that generates [{id: 7}]: the [id] of the object becomes 7. *)
Lemma X8_witness_insert_custom_values :
  let t := mkTransactionScopeObject EntityCollection (PRef 4) (Some Insert)
             (Some customValues) in
  let r := replayTransaction generatingStore changedFields shallowMerge None t
             freshWorld in
  type t ≠ RawQuery
  ∧ constructorName (heap freshWorld) (PRef 4) = Normal (VStr "Object")
  ∧ trace r.1
      = trace freshWorld ++ [EvDs (DsInsert (VStr "Object") (values customValues))]
  ∧ r.2 = Normal tt
  ∧ heap r.1 4 = shallowMerge plainObject (Some {[ "id" := VNum 7 ]})
  ∧ props (heap freshWorld 4) !! "id" = Some (VNum 9)
  ∧ props (heap r.1 4) !! "id" = Some (VNum 7).
Proof.
  intros t r.
  destruct (X8_insert_with_options_merges_generated_fields
              generatingStore changedFields shallowMerge None t freshWorld
              customValues 4 (VStr "Object")
              ltac:(discriminate) eq_refl eq_refl eq_refl eq_refl)
    as (Htrace & Hdone).
  split; [discriminate|]. split; [reflexivity|]. split; [exact Htrace|].
  destruct Hdone as (Hok & Hmerged & _).
  split; [exact Hok|]. split; [exact Hmerged|]. split; [reflexivity|].
  subst r. rewrite Hmerged. reflexivity.
Defined.

(** X9 at work on a scope on which nothing was staged. *)
Lemma X9_witness_fresh_scope :
  _transactionObjects freshWorld = []
  ∧ issued (trace (commitWork okStore changedFields shallowMerge None false
                     (deleteCollection [1; 2] freshWorld).1).1)
      = [DsSoftRemove (PArr [1; 2]) None].
Proof.
  split; [reflexivity|].
  destruct (X9_staged_method_to_datastore_call
              okStore changedFields shallowMerge None freshWorld "SELECT 1" []
              1 [1; 2] eq_refl) as (_ & _ & _ & _ & _ & Hdel & _).
  exact Hdel.
Defined.

(** X10 at work: the datastore refuses the raw query that stands between
    two Deletes. *)
Lemma X10_witness_refused_query :
  let before := [mkTransactionScopeObject EntityCollection (PRef 1)
                   (Some Delete) None] in
  let t := rawRecord "SELECT 1" [] in
  let after := [mkTransactionScopeObject EntityCollection (PRef 2)
                  (Some Delete) None] in
  let w := withQueue (before ++ t :: after) [quietHook] in
  let wb := (ds noQueryStore DsStartTransaction w).1 in
  let w1 := (forEachM (replayTransaction noQueryStore changedFields shallowMerge None)
               before wb).1 in
  let w2 := (replayTransaction noQueryStore changedFields shallowMerge None t w1).1 in
  replayTransaction noQueryStore changedFields shallowMerge None t w1
    = (w2, Throw (External "query failed"))
  ∧ commit noQueryStore changedFields shallowMerge None None false w
      = (set_transactionObjects [] (ds noQueryStore DsRollbackTransaction w2).1,
         Throw (External "query failed"))
  ∧ issued (trace (commit noQueryStore changedFields shallowMerge
                     None None false w).1)
      = [DsStartTransaction; DsSoftRemove (PRef 1) None;
         DsQuery (VStr "SELECT 1") (VArr []); DsRollbackTransaction].
Proof.
  intros before t after w wb w1 w2.
  destruct (X10_failing_step_ends_commit
              noQueryStore changedFields shallowMerge None None
              w before t after wb [] w1 w2 (External "query failed")
              eq_refl eq_refl eq_refl eq_refl) as (Hrun & Htrace).
  split; [reflexivity|]. split; [exact Hrun|].
  rewrite Htrace. reflexivity.
Defined.

(** X13 at work: custom values that name a [constructor]. *)
Lemma X13_witness_constructor_entry :
  let w' := (updateWithCustomValues 1 otherClassValues freshWorld).1 in
  values otherClassValues !! "__proto__" = None
  ∧ constructorName (heap freshWorld) (PRef 1) = Normal (VStr "User")
  ∧ constructorName (heap w') (PRef 1) = Normal (VStr "Other")
  ∧ props (heap w' 1) !! "name" = Some (VStr "a")
  ∧ props (heap w' 1) !! "id" = Some (VNum 1).
Proof.
  intros w'.
  pose proof (X13_updateWithCustomValues_overlays_fields
                freshWorld 1 otherClassValues eq_refl) as H.
  cbv zeta in H. destruct H as (Hprops & Hcls & _).
  split; [reflexivity|]. split; [reflexivity|]. subst w'.
  split; [rewrite Hcls; reflexivity|].
  split; rewrite Hprops; reflexivity.
Defined.

(** X15 at work: [updateWithCustomValues(e1, {where: "id > 3", values:
    {name: "a", constructor: {name: "Other"}}})]. *)
Lemma X15_witness_update_where :
  values otherClassValues !! "entitySnapshot" = None
  ∧ truthy (getProp (heap freshWorld) 1 "entitySnapshot") = false
  ∧ constructorName (heap freshWorld) (PRef 1) = Normal (VStr "User")
  ∧ issued (trace (commitWork okStore changedFields shallowMerge None false
                     (updateWithCustomValues 1 otherClassValues freshWorld).1).1)
      = [DsUpdate (VStr "Other") (CriteriaWhere "id > 3") (values otherClassValues)].
Proof.
  split; [reflexivity|]. split; [reflexivity|]. split; [reflexivity|].
  exact (proj1 (X15_update_with_criteria_reaches_datastore
                  okStore changedFields shallowMerge None freshWorld 1
                  otherClassValues "id > 3" (VStr "Other")
                  eq_refl eq_refl ltac:(discriminate) eq_refl eq_refl eq_refl
                  eq_refl eq_refl)).
Defined.

(** X18 at work: a commit of one raw query with one hook, then a second
    commit. *)
Lemma X18_witness_commit_twice :
  let w := withQueue [rawRecord "SELECT 1" []] [quietHook] in
  let w1 := (commit okStore changedFields shallowMerge None None false w).1 in
  commit okStore changedFields shallowMerge None None false w = (w1, Normal tt)
  ∧ _transactionObjects w1 = []
  ∧ _hooks w1 = []
  ∧ invoked (trace (commit okStore changedFields shallowMerge None None false w1).1)
      = [quietHook].
Proof.
  intros w w1.
  destruct (X18_second_commit_has_nothing_to_do
              okStore changedFields shallowMerge None None false w w1
              None None false eq_refl) as (Hq & Hh & Hinv & _).
  split; [reflexivity|]. split; [exact Hq|]. split; [exact Hh|].
  rewrite Hinv. reflexivity.
Defined.

(** X20 at work: a commit fails on its raw query; an entity is then
    staged and committed. *)
Lemma X20_witness_failed_then_committed :
  let w := withQueue [rawRecord "SELECT 1" []] [quietHook; rejectingHook] in
  let r1 := commit noQueryStore changedFields shallowMerge None None false w in
  let w2 := (add 1 r1.1).1 in
  let r2 := commit noQueryStore changedFields shallowMerge None None false w2 in
  r1.2 = Throw (External "query failed")
  ∧ invoked (trace r1.1) = invoked (trace w)
  ∧ _hooks r1.1 = [quietHook; rejectingHook]
  ∧ r2.2 = Normal tt
  ∧ invoked (trace r2.1) = [quietHook; rejectingHook]
  ∧ _hooks r2.1 = [].
Proof.
  intros w r1 w2 r2.
  destruct (X20_failed_commit_keeps_the_hooks
              noQueryStore changedFields shallowMerge None None false
              w r1.1 (External "query failed") eq_refl eq_refl)
    as (_ & Hh & _ & Hnext).
  destruct (Hnext None None false w2 r2.1 eq_refl eq_refl) as (Hinv & Hnone).
  split; [reflexivity|]. split; [reflexivity|]. split; [exact Hh|].
  split; [reflexivity|]. split; [exact Hinv | exact Hnone].
Defined.

(** C2 at work: a raw query, then an Update of an entity with a snapshot,
    then a Delete. *)
Lemma C2_witness_update_with_snapshot :
  let before := [rawRecord "SELECT 1" []] in
  let t := mkTransactionScopeObject EntityCollection (PRef 3) (Some Update) None in
  let after := [mkTransactionScopeObject EntityCollection (PRef 1) (Some Delete) None] in
  let w := withQueue (before ++ t :: after) [quietHook] in
  let wb := (ds okStore DsStartTransaction w).1 in
  let w1 := (forEachM (replayTransaction okStore changedFields shallowMerge None)
               before wb).1 in
  let c := DsUpdate (VStr "User") (CriteriaId (VNum 3)) (changedFields (sampleHeap 3)) in
  let r := commit okStore changedFields shallowMerge None None false w in
  specDispatch changedFields None (heap w1) t = Some c
  ∧ (∃ rest, trace r.1 = trace w1 ++ EvDs c :: rest)
  ∧ issued (trace r.1) =
      [DsStartTransaction; DsQuery (VStr "SELECT 1") (VArr []); c;
       DsSoftRemove (PRef 1) None; DsCommitTransaction]
  ∧ invoked (trace r.1) = [quietHook]
  ∧ r.2 = Normal tt.
Proof.
  intros before t after w wb w1 c r.
  destruct (C2_commit_replays_in_order_by_kind_and_state
              okStore changedFields shallowMerge None None
              w before t after wb [] w1 c eq_refl eq_refl eq_refl eq_refl)
    as (Hnext & _ & _).
  split; [reflexivity|]. split; [exact Hnext|].
  split; [reflexivity|]. split; reflexivity.
Defined.

(** C10 at work: a Delete and a HardDelete, committed with save options
    and without remove options. *)
Lemma C10_witness_delete_then_hard_delete :
  let so : option SaveOptions := Some {[ "reload" := VBool false ]} in
  let ro : option RemoveOptions := None in
  let before := [mkTransactionScopeObject EntityCollection (PRef 1)
                   (Some Delete) None] in
  let t := mkTransactionScopeObject EntityCollection (PRef 2)
             (Some HardDelete) None in
  let w := withQueue (before ++ t :: []) [] in
  let wb := (ds okStore DsStartTransaction w).1 in
  let w1 := (forEachM (replayTransaction okStore changedFields shallowMerge so)
               before wb).1 in
  let r := commit okStore changedFields shallowMerge so ro false w in
  so ≠ ro
  ∧ (∃ rest, trace r.1 = trace w1 ++ EvDs (DsRemove (PRef 2) so) :: rest)
  ∧ issued (trace r.1) =
      [DsStartTransaction; DsSoftRemove (PRef 1) so; DsRemove (PRef 2) so;
       DsCommitTransaction].
Proof.
  intros so ro before t w wb w1 r.
  destruct (C10_commit_never_uses_removeOptions
              okStore changedFields shallowMerge so ro ro false w)
    as (_ & _ & Hreach).
  destruct (Hreach before t [] wb [] w1 eq_refl eq_refl eq_refl
              ltac:(discriminate)) as (_ & Hhard).
  split; [discriminate|]. split; [exact (Hhard eq_refl)|]. reflexivity.
Defined.

End TransactionScope.
